(** * The BigGAN training orchestrator of examples/celeba/train.py

    A shallow embedding of [run] (train.py, lines 41-231) and the properties
    of its set-up phase and of its training loop.

    The orchestrator talks to many collaborators (utils, train_fns, the XLA
    loaders, the progress bar).  Every call to one of them is recorded as an
    [event]; the State Dictionary is passed explicitly; Python exceptions are
    a result of the computation; the [while] loop runs on fuel.  Console
    output ([xm.master_print]) is not recorded.

    The file also embeds the CelebA-HQ dataset class of
    examples/celeba/datasets.py and the configuration classes of
    examples/nlp/configs.py. *)

From Stdlib Require Import ZArith Lia Bool List Ascii.
From stdpp Require Import gmap strings pretty.

Open Scope Z_scope.

(** ** Data model *)

(** The configuration dictionary, restricted to the keys [run] reads or
    writes.  The derived keys ([resolution], [n_classes], [G_activation],
    [D_activation]) are absent ([None]) until [run] fills them in.
    Activation objects are represented by their handle. *)
Record Config := mkConfig {
  dataset : string;
  G_nl : string;
  D_nl : string;
  model : string;
  resume : bool;
  skip_init : bool;
  seed : Z;
  ema : bool;
  G_fp16 : bool;
  D_fp16 : bool;
  batch_size : Z;
  num_D_steps : Z;
  num_D_accumulations : Z;
  G_batch_size : Z;
  num_devices : Z;
  total_steps : Z;
  save_every : Z;
  test_every : Z;
  sv_log_interval : Z;
  G_eval_mode : bool;
  resolution : option Z;
  n_classes : option Z;
  G_activation : option string;
  D_activation : option string
}.

Definition set_resolution (v : Z) (c : Config) : Config :=
  mkConfig (dataset c) (G_nl c) (D_nl c) (model c) (resume c) (skip_init c)
    (seed c) (ema c) (G_fp16 c) (D_fp16 c) (batch_size c) (num_D_steps c)
    (num_D_accumulations c) (G_batch_size c) (num_devices c) (total_steps c)
    (save_every c) (test_every c) (sv_log_interval c) (G_eval_mode c)
    (Some v) (n_classes c) (G_activation c) (D_activation c).

Definition set_n_classes (v : Z) (c : Config) : Config :=
  mkConfig (dataset c) (G_nl c) (D_nl c) (model c) (resume c) (skip_init c)
    (seed c) (ema c) (G_fp16 c) (D_fp16 c) (batch_size c) (num_D_steps c)
    (num_D_accumulations c) (G_batch_size c) (num_devices c) (total_steps c)
    (save_every c) (test_every c) (sv_log_interval c) (G_eval_mode c)
    (resolution c) (Some v) (G_activation c) (D_activation c).

Definition set_G_activation (v : string) (c : Config) : Config :=
  mkConfig (dataset c) (G_nl c) (D_nl c) (model c) (resume c) (skip_init c)
    (seed c) (ema c) (G_fp16 c) (D_fp16 c) (batch_size c) (num_D_steps c)
    (num_D_accumulations c) (G_batch_size c) (num_devices c) (total_steps c)
    (save_every c) (test_every c) (sv_log_interval c) (G_eval_mode c)
    (resolution c) (n_classes c) (Some v) (D_activation c).

Definition set_D_activation (v : string) (c : Config) : Config :=
  mkConfig (dataset c) (G_nl c) (D_nl c) (model c) (resume c) (skip_init c)
    (seed c) (ema c) (G_fp16 c) (D_fp16 c) (batch_size c) (num_D_steps c)
    (num_D_accumulations c) (G_batch_size c) (num_devices c) (total_steps c)
    (save_every c) (test_every c) (sv_log_interval c) (G_eval_mode c)
    (resolution c) (n_classes c) (G_activation c) (Some v).

Definition set_skip_init (v : bool) (c : Config) : Config :=
  mkConfig (dataset c) (G_nl c) (D_nl c) (model c) (resume c) v
    (seed c) (ema c) (G_fp16 c) (D_fp16 c) (batch_size c) (num_D_steps c)
    (num_D_accumulations c) (G_batch_size c) (num_devices c) (total_steps c)
    (save_every c) (test_every c) (sv_log_interval c) (G_eval_mode c)
    (resolution c) (n_classes c) (G_activation c) (D_activation c).

(** The State Dictionary: [state_dict] of train.py, line 111.  The two
    best-metric bookmarks start as Python integers; the evaluation engine
    later stores its own values in them, which the model does not
    interpret. *)
Record StateDict := mkState {
  itr : Z;
  save_num : Z;
  save_best_num : Z;
  best_IS : Z;
  best_FID : Z;
  config : Config
}.

Definition set_itr (v : Z) (s : StateDict) : StateDict :=
  mkState v (save_num s) (save_best_num s) (best_IS s) (best_FID s) (config s).

(** ** Collaborators *)

(** What surrounds one execution of [run] on one device: the three lookup
    tables of utils, whether this process is the master ordinal, the number
    of batches one pass over the per-device loader yields, the checkpoint
    found on disk, and what the checkpoint manager and the evaluation engine
    write into the State Dictionary. *)
Record Env := mkEnv {
  imsize_dict : gmap string Z;
  nclass_dict : gmap string Z;
  activation_dict : gmap string string;
  is_master_ordinal : bool;
  loader_len : nat;
  checkpoint : StateDict;
  save_and_sample_writes : StateDict -> StateDict;
  test_writes : StateDict -> StateDict
}.

(** Modelled from the spec: utils.load_weights is not under src/.  Section 3
    and section 6: on resume the State Dictionary is restored from the
    checkpoint, every key reloaded as it was saved. *)
Definition load_weights (env : Env) (state_dict : StateDict) : StateDict :=
  checkpoint env.

(** Modelled from the spec: train_fns.save_and_sample and train_fns.test are
    not under src/.  Section 3: the iteration count advances only by the
    orchestrator's own step; the checkpoint manager and the evaluation engine
    write the save counters and the best-metric bookmarks.  Their writes are
    a parameter of the environment, applied to those four keys. *)
Definition collaborator_write (f : StateDict -> StateDict) (s : StateDict)
  : StateDict :=
  mkState (itr s) (save_num (f s)) (save_best_num (f s)) (best_IS (f s))
    (best_FID (f s)) (config s).

(** ** Events, exceptions and the orchestrator monad *)

Inductive event :=
| seed_rng (seed : Z)
| prepare_root
| import_model (name : string)
| build_G
| build_D
| build_G_ema
| G_half
| G_ema_half
| D_half
| build_G_D
| ev_load_weights
| new_test_log (reinitialize : bool)
| new_train_log (reinitialize : bool)
| write_metadata
| get_data_loaders (batch start_itr : Z)
| prepare_inception_metrics
| prepare_z_y (G_batch : Z)
| GAN_training_function
| per_device_loader
| pbar_update (n : Z)
| itr_write (new_itr : Z)
| G_train
| D_train
| G_ema_train
| to_device (half : bool)
| train (at_itr : Z)
| train_log_log (at_itr : Z)
| train_log_SVs (at_itr : Z)
| pbar_set_description (at_itr : Z)
| G_eval
| G_ema_eval
| save_and_sample (at_itr sample_batch : Z)
| test (at_itr sample_batch : Z)
| pbar_close.

Inductive exn :=
| KeyError (key : string)
| AssertionError
| ZeroDivisionError.

Inductive result (A : Type) :=
| Ok (a : A)
| Raise (e : exn)
| OutOfFuel.

Arguments Ok {A} a.
Arguments Raise {A} e.
Arguments OutOfFuel {A}.

(** A computation yields the events it performed, in order, and how it
    ended.  The events performed before an exception are kept. *)
Definition M (A : Type) : Type := (list event * result A)%type.

Definition ret {A} (a : A) : M A := ([], Ok a).

Definition bind {A B} (m : M A) (k : A -> M B) : M B :=
  match m with
  | (t, Ok a) => match k a with (t', r) => (t ++ t', r) end
  | (t, Raise e) => (t, Raise e)
  | (t, OutOfFuel) => (t, OutOfFuel)
  end.

Notation "'let*' x ':=' m 'in' k" := (bind m (fun x => k))
  (at level 10, x name, m at level 100, k at level 200).

Notation "m '>>' k" := (bind m (fun _ => k))
  (at level 100, k at level 200, right associativity).

Definition emit (e : event) : M unit := ([e], Ok tt).
Definition raise {A} (e : exn) : M A := ([], Raise e).
Definition out_of_fuel {A} : M A := ([], OutOfFuel).
Definition when (b : bool) (m : M unit) : M unit := if b then m else ret tt.

(** [d[k]] on a Python dict. *)
Definition getitem {V} (d : gmap string V) (k : string) : M V :=
  match d !! k with
  | Some v => ret v
  | None => raise (KeyError k)
  end.

(** [a % b] on Python integers: floor remainder, which is [Z.modulo] for a
    non-zero divisor. *)
Definition py_mod (a b : Z) : M Z :=
  if b =? 0 then raise ZeroDivisionError else ret (a mod b).

(** [assert b]. *)
Definition py_assert (b : bool) : M unit :=
  if b then ret tt else raise AssertionError.

(** ** The orchestrator *)

(** Lines 51-54: the derived keys.  An identifier missing from its table
    raises Python's [KeyError]. *)
Definition resolve_config (env : Env) (config : Config) : M Config :=
  let* r := getitem (imsize_dict env) (dataset config) in
  let config := set_resolution r config in
  let* n := getitem (nclass_dict env) (dataset config) in
  let config := set_n_classes n config in
  let* g := getitem (activation_dict env) (G_nl config) in
  let config := set_G_activation g config in
  let* d := getitem (activation_dict env) (D_nl config) in
  ret (set_D_activation d config).

(** Lines 61-62. *)
Definition check_intervals (config : Config) : M unit :=
  let* s := py_mod (save_every config) (num_devices config) in
  py_assert (s =? 0) >>
  let* t := py_mod (test_every config) (num_devices config) in
  py_assert (t =? 0).

(** Lines 111-120: the fresh State Dictionary, replaced by the checkpoint's
    when resuming. *)
Definition fresh_state_dict (config : Config) : StateDict :=
  mkState 0 0 0 0 999999 config.

Definition prepare_state_dict (env : Env) (config : Config) : M StateDict :=
  let state_dict := fresh_state_dict config in
  if resume config
  then emit ev_load_weights >> ret (load_weights env state_dict)
  else ret state_dict.

(** Lines 144-145 and line 160. *)
Definition D_batch_size (config : Config) : Z :=
  batch_size config * num_D_steps config * num_D_accumulations config.

Definition sample_batch_size (config : Config) : Z :=
  Z.max (G_batch_size config) (batch_size config).

(** Line 162: the sampling closure, bound to the batch size of line 160. *)
Definition sample (G_batch_size : Z) : M unit :=
  emit (prepare_z_y G_batch_size).

(** Line 201: [and] evaluates its right operand only when the left one
    holds, so a zero interval never reaches the remainder. *)
Definition sv_due (config : Config) (state_dict : StateDict) : M bool :=
  if 0 <? sv_log_interval config
  then let* r := py_mod (itr state_dict) (sv_log_interval config) in
       ret (r =? 0)
  else ret false.

(** Lines 179-227: the body of the [for] loop, up to the [break] test. *)
Definition inner_step (env : Env) (config : Config) (G_batch_size : Z)
    (state_dict : StateDict) : M StateDict :=
  when (is_master_ordinal env) (emit (pbar_update (num_devices config))) >>
  let state_dict := set_itr (itr state_dict + num_devices config) state_dict in
  emit (itr_write (itr state_dict)) >>
  emit G_train >>
  emit D_train >>
  when (ema config) (emit G_ema_train) >>
  emit (to_device (D_fp16 config)) >>
  emit (train (itr state_dict)) >>
  when (is_master_ordinal env) (emit (train_log_log (itr state_dict))) >>
  let* sv := sv_due config state_dict in
  when (sv && is_master_ordinal env) (emit (train_log_SVs (itr state_dict))) >>
  when (is_master_ordinal env) (emit (pbar_set_description (itr state_dict))) >>
  let* s := py_mod (itr state_dict) (save_every config) in
  let* state_dict :=
    if s =? 0
    then when (G_eval_mode config)
           (emit G_eval >> when (ema config) (emit G_ema_eval)) >>
         emit (save_and_sample (itr state_dict) G_batch_size) >>
         ret (collaborator_write (save_and_sample_writes env) state_dict)
    else ret state_dict in
  let* t := py_mod (itr state_dict) (test_every config) in
  if t =? 0
  then when (G_eval_mode config) (emit G_eval) >>
       emit (test (itr state_dict) G_batch_size) >>
       ret (collaborator_write (test_writes env) state_dict)
  else ret state_dict.

(** Lines 178-230: one pass over the per-device loader, [batches] batches
    long, left early by the [break] of line 229. *)
Fixpoint for_loader (batches : nat) (env : Env) (config : Config)
    (G_batch_size : Z) (state_dict : StateDict) : M StateDict :=
  match batches with
  | O => ret state_dict
  | S rest =>
      let* state_dict := inner_step env config G_batch_size state_dict in
      if total_steps config <=? itr state_dict
      then ret state_dict
      else for_loader rest env config G_batch_size state_dict
  end.

(** Lines 175-231: the [while] loop; [fuel] bounds the number of passes. *)
Fixpoint train_loop (fuel : nat) (env : Env) (config : Config)
    (G_batch_size : Z) (state_dict : StateDict) : M StateDict :=
  if itr state_dict <? total_steps config
  then match fuel with
       | O => out_of_fuel
       | S fuel' =>
           emit per_device_loader >>
           let* state_dict :=
             for_loader (loader_len env) env config G_batch_size state_dict in
           emit pbar_close >>
           train_loop fuel' env config G_batch_size state_dict
       end
  else ret state_dict.

(** What the set-up phase hands to the training loop: the configuration
    with its derived keys, the batch size bound in the sampling closure and
    the State Dictionary. *)
Record Ready := mkReady {
  ready_config : Config;
  ready_sample_batch : Z;
  ready_state : StateDict
}.

(** Lines 46-172: everything [run] does before the [while] loop.  Line 59,
    [config = utils.update_config_roots(config)], has no counterpart: utils
    is not under src/, and the root folders it is there to rewrite are not
    among the keys the record [Config] holds. *)
Definition setup (env : Env) (config : Config) : M Ready :=
  let* config := resolve_config env config in
  let config := if resume config then set_skip_init true config else config in
  check_intervals config >>
  emit (seed_rng (seed config)) >>
  emit prepare_root >>
  emit (import_model (model config)) >>
  emit build_G >>
  emit build_D >>
  when (ema config) (emit build_G_ema) >>
  when (G_fp16 config) (emit G_half >> when (ema config) (emit G_ema_half)) >>
  when (D_fp16 config) (emit D_half) >>
  emit build_G_D >>
  let* state_dict := prepare_state_dict env config in
  emit (new_test_log (negb (resume config))) >>
  emit (new_train_log (negb (resume config))) >>
  when (is_master_ordinal env) (emit write_metadata) >>
  emit (get_data_loaders (D_batch_size config) (itr state_dict)) >>
  emit prepare_inception_metrics >>
  let G_batch_size := sample_batch_size config in
  sample G_batch_size >>
  emit GAN_training_function >>
  ret (mkReady config G_batch_size state_dict).

(** Lines 41-231. *)
Definition run (fuel : nat) (env : Env) (config : Config) : M StateDict :=
  let* ready := setup env config in
  train_loop fuel env (ready_config ready) (ready_sample_batch ready)
    (ready_state ready).

(** ** Vocabulary of the properties *)

(** The identifiers of a configuration are recognized when each is a key of
    the table [run] looks it up in. *)
Definition recognized (env : Env) (config : Config) : Prop :=
  is_Some (imsize_dict env !! dataset config) /\
  is_Some (nclass_dict env !! dataset config) /\
  is_Some (activation_dict env !! G_nl config) /\
  is_Some (activation_dict env !! D_nl config).

(** The error class the specification calls ConfigError: the [KeyError]
    Python raises for an identifier missing from its table. *)
Definition ConfigError (e : exn) : Prop := exists key, e = KeyError key.

(** The iteration count the training loop starts from. *)
Definition start_itr (env : Env) (config : Config) : Z :=
  if resume config then itr (checkpoint env) else 0.

Definition is_train (e : event) : bool :=
  match e with train _ => true | _ => false end.

Definition is_train_log_write (e : event) : bool :=
  match e with train_log_log _ | train_log_SVs _ => true | _ => false end.

Definition is_training_event (e : event) : bool :=
  match e with
  | seed_rng _ | prepare_root | import_model _ | build_G | build_D
  | build_G_ema | G_half | G_ema_half | D_half | build_G_D
  | ev_load_weights | new_test_log _ | new_train_log _ | write_metadata
  | get_data_loaders _ _ | prepare_inception_metrics | prepare_z_y _
  | GAN_training_function => false
  | _ => true
  end.

(** Number of inner iterations performed: calls of the step function. *)
Fixpoint inner_iterations (tr : list event) : nat :=
  match tr with
  | [] => O
  | train _ :: tr' => S (inner_iterations tr')
  | _ :: tr' => inner_iterations tr'
  end.

(** The successive values written to [state_dict['itr']]. *)
Fixpoint itr_writes (tr : list event) : list Z :=
  match tr with
  | [] => []
  | itr_write v :: tr' => v :: itr_writes tr'
  | _ :: tr' => itr_writes tr'
  end.

(** Every value of [l] is the one before it plus [d], the first one being
    [from + d]. *)
Fixpoint advances_by (d from : Z) (l : list Z) : Prop :=
  match l with
  | [] => True
  | v :: l' => v = from + d /\ advances_by d v l'
  end.

Fixpoint nondecreasing (from : Z) (l : list Z) : Prop :=
  match l with
  | [] => True
  | v :: l' => from <= v /\ nondecreasing v l'
  end.

(** [m] is the least multiple of [d] that is at least [n]. *)
Definition least_multiple_from (d n m : Z) : Prop :=
  (d | m) /\ n <= m /\ forall m', (d | m') -> n <= m' -> m <= m'.

(** The iteration counts at which singular values were logged. *)
Fixpoint sv_logs (tr : list event) : list Z :=
  match tr with
  | [] => []
  | train_log_SVs i :: tr' => i :: sv_logs tr'
  | _ :: tr' => sv_logs tr'
  end.

(** Scanning a trace for the order of counter writes and step calls: the
    state is the value written since the last step call, if any; a step call
    is in order when such a write exists and is the count the call observes. *)
Fixpoint step_order (pending : option Z) (tr : list event)
  : option (option Z) :=
  match tr with
  | [] => Some pending
  | itr_write v :: tr' => step_order (Some v) tr'
  | train v :: tr' =>
      match pending with
      | Some w => if w =? v then step_order None tr' else None
      | None => None
      end
  | _ :: tr' => step_order pending tr'
  end.

(** ** Normal forms of the set-up phase and of an inner iteration *)

(** [c'] is [c] with its four derived keys filled in. *)
Definition resolved_from (c c' : Config) : Prop :=
  exists r n g d,
    c' = set_D_activation d (set_G_activation g (set_n_classes n
           (set_resolution r c))).

(** The configuration the rest of [run] works with (line 58). *)
Definition with_skip_init (c : Config) : Config :=
  if resume c then set_skip_init true c else c.

(** The configuration [run] trains with: the caller's, with the derived keys
    filled in and [skip_init] forced when resuming. *)
Definition prepared_from (c c' : Config) : Prop :=
  exists c1, resolved_from c c1 /\ c' = with_skip_init c1.

Definition initial_state (env : Env) (c : Config) : StateDict :=
  if resume c then checkpoint env else fresh_state_dict c.

(** The events of a successful set-up, in order. *)
Definition setup_events (env : Env) (c : Config) (start : Z) : list event :=
  [seed_rng (seed c); prepare_root; import_model (model c); build_G; build_D]
  ++ (if ema c then [build_G_ema] else [])
  ++ (if G_fp16 c then G_half :: (if ema c then [G_ema_half] else []) else [])
  ++ (if D_fp16 c then [D_half] else [])
  ++ [build_G_D]
  ++ (if resume c then [ev_load_weights] else [])
  ++ [new_test_log (negb (resume c)); new_train_log (negb (resume c))]
  ++ (if is_master_ordinal env then [write_metadata] else [])
  ++ [get_data_loaders (D_batch_size c) start; prepare_inception_metrics;
      prepare_z_y (sample_batch_size c); GAN_training_function].

(** The events of an inner iteration up to the save test, [i] being the
    advanced iteration count. *)
Definition step_head (env : Env) (c : Config) (i : Z) : list event :=
  (if is_master_ordinal env then [pbar_update (num_devices c)] else [])
  ++ [itr_write i; G_train; D_train]
  ++ (if ema c then [G_ema_train] else [])
  ++ [to_device (D_fp16 c); train i]
  ++ (if is_master_ordinal env then [train_log_log i] else [])
  ++ (if (0 <? sv_log_interval c) && (i mod sv_log_interval c =? 0)
         && is_master_ordinal env
      then [train_log_SVs i] else [])
  ++ (if is_master_ordinal env then [pbar_set_description i] else []).

Definition save_events (c : Config) (i g : Z) : list event :=
  (if G_eval_mode c then G_eval :: (if ema c then [G_ema_eval] else [])
   else [])
  ++ [save_and_sample i g].

Definition test_events (c : Config) (i g : Z) : list event :=
  (if G_eval_mode c then [G_eval] else []) ++ [test i g].

(** ** Vocabulary of the loop properties *)

(** The tail of an inner iteration, after the save test, neither writes the
    counter nor calls the step function. *)
Definition quiet (tr : list event) : Prop :=
  itr_writes tr = [] /\ inner_iterations tr = 0%nat /\
  (forall pending, step_order pending tr = Some pending) /\
  Forall (fun e => is_train_log_write e = false) tr.

(** What a loop computation started at iteration count [i0] guarantees,
    whatever its outcome: the counter is written in steps of [d], every step
    call follows its write, and on normal termination the final count is the
    last one written, reached in as many step calls. *)
Definition tracks (d i0 : Z) (m : M StateDict) : Prop :=
  advances_by d i0 (itr_writes (fst m)) /\
  (forall pending, exists p, step_order pending (fst m) = Some p) /\
  (forall s', snd m = Ok s' ->
     itr s' = List.last (itr_writes (fst m)) i0 /\
     Z.of_nat (inner_iterations (fst m)) * d = itr s' - i0).

Definition no_sv_log (e : event) : Prop :=
  match e with train_log_SVs _ => False | _ => True end.

(** A run starts aligned when its starting iteration count is a multiple of
    the device count and less than one step beyond the step budget; a fresh
    run, which starts at 0, is aligned whenever both are positive. *)
Definition aligned_start (env : Env) (config : Config) : Prop :=
  (num_devices config | start_itr env config) /\
  start_itr env config < total_steps config + num_devices config.

(** Event predicates of the set-up properties. *)
Definition requests_batch (b : Z) (e : event) : Prop :=
  match e with get_data_loaders b' _ => b' = b | _ => True end.

Definition samples_with (g : Z) (e : event) : Prop :=
  match e with
  | prepare_z_y g' | save_and_sample _ g' | test _ g' => g' = g
  | _ => True
  end.

Definition zero_valued (s : StateDict) : Prop :=
  itr s = 0 /\ save_num s = 0 /\ save_best_num s = 0 /\
  best_IS s = 0 /\ best_FID s = 0.

(** ** Concrete runs *)

Definition demo_tables_env (master : bool) (batches : nat) (ckpt_itr : Z)
    (ckpt_config : Config) : Env :=
  mkEnv {[ "celeba" := 128 ]} {[ "celeba" := 1 ]}
    {[ "relu" := "ReLU"; "inplace_relu" := "ReLU_inplace" ]}
    master batches (mkState ckpt_itr 3 1 2 40 ckpt_config)
    (fun s => mkState (itr s) (save_num s + 1) (save_best_num s) (best_IS s)
                (best_FID s) (config s))
    (fun s => mkState (itr s) (save_num s) (save_best_num s + 1) 3 35
                (config s)).

Definition demo_config (ds : string) (res : bool) (devices save sv : Z)
  : Config :=
  mkConfig ds "relu" "inplace_relu" "BigGAN" res false 0 true false false
    64 1 8 32 devices 10 save 8 sv true None None None None.

(** A fresh run on four devices, ten steps in all, two batches per pass. *)
Definition fresh_config : Config := demo_config "celeba" false 4 8 4.
Definition fresh_env : Env := demo_tables_env true 2 0 fresh_config.

(** The same run resumed from a checkpoint a two-device run saved at
    iteration 6. *)
Definition resumed_config : Config := demo_config "celeba" true 4 8 4.
Definition resumed_env : Env :=
  demo_tables_env true 2 6 (demo_config "celeba" false 2 2 4).

(** A dataset no table knows, and a save interval off the device count. *)
Definition unknown_dataset_config : Config := demo_config "imagenet" false 4 8 4.
Definition misaligned_config : Config := demo_config "celeba" false 4 6 4.

(** A device other than the master ordinal. *)
Definition worker_env : Env := demo_tables_env false 2 0 fresh_config.

(** A device count below zero, which the assertions of lines 61-62 let
    through (8 % -4 == 0), and an unknown dataset together with a save
    interval off the device count. *)
Definition negative_devices_config : Config :=
  demo_config "celeba" false (-4) 8 4.
Definition unknown_misaligned_config : Config :=
  demo_config "imagenet" false 4 6 4.

(** ** Vocabulary of the further properties of [run] *)

(** The same surroundings seen from the master ordinal or from another
    device. *)
Definition on_device (master : bool) (env : Env) : Env :=
  mkEnv (imsize_dict env) (nclass_dict env) (activation_dict env) master
    (loader_len env) (checkpoint env) (save_and_sample_writes env)
    (test_writes env).

(** The calls [run] guards by [xm.is_master_ordinal()]. *)
Definition master_only (e : event) : bool :=
  match e with
  | write_metadata | pbar_update _ | train_log_log _ | train_log_SVs _
  | pbar_set_description _ => true
  | _ => false
  end.

(** What is left of a trace once the master-only calls are taken out: the
    calls every device makes. *)
Fixpoint collective_events (tr : list event) : list event :=
  match tr with
  | [] => []
  | e :: tr' =>
      if master_only e then collective_events tr'
      else e :: collective_events tr'
  end.

(** The iteration counts at which the checkpoint manager, respectively the
    evaluation engine, was invoked. *)
Fixpoint save_itrs (tr : list event) : list Z :=
  match tr with
  | [] => []
  | save_and_sample i _ :: tr' => i :: save_itrs tr'
  | _ :: tr' => save_itrs tr'
  end.

Fixpoint test_itrs (tr : list event) : list Z :=
  match tr with
  | [] => []
  | test i _ :: tr' => i :: test_itrs tr'
  | _ :: tr' => test_itrs tr'
  end.

(** The sum of the amounts passed to [pbar.update], whether the bar was
    still open or not: what the bar makes of an update is tqdm's affair
    (tqdm ignores the updates sent to a bar that was closed). *)
Fixpoint pbar_total (tr : list event) : Z :=
  match tr with
  | [] => 0
  | pbar_update n :: tr' => n + pbar_total tr'
  | _ :: tr' => pbar_total tr'
  end.

(** The number of calls of [pbar.close]. *)
Fixpoint pbar_closes (tr : list event) : nat :=
  match tr with
  | [] => O
  | pbar_close :: tr' => S (pbar_closes tr')
  | _ :: tr' => pbar_closes tr'
  end.

(** The number of passes over the per-device loader. *)
Fixpoint passes (tr : list event) : nat :=
  match tr with
  | [] => O
  | per_device_loader :: tr' => S (passes tr')
  | _ :: tr' => passes tr'
  end.

(** Whether G, D and the EMA copy are known to be in training mode. *)
Record Modes := mkModes {
  G_training : bool;
  D_training : bool;
  G_ema_training : bool
}.

(** Scanning a trace for the modes the step function runs in.  [train()]
    puts a network in training mode, [eval()] takes it out, and nothing is
    known of the modes once a collaborator (checkpoint manager, evaluation
    engine) has run; a step call is in order when G and D, and the EMA copy
    when there is one, are in training mode. *)
Fixpoint step_modes (with_ema : bool) (m : Modes) (tr : list event)
  : option Modes :=
  match tr with
  | [] => Some m
  | G_train :: tr' =>
      step_modes with_ema (mkModes true (D_training m) (G_ema_training m)) tr'
  | D_train :: tr' =>
      step_modes with_ema (mkModes (G_training m) true (G_ema_training m)) tr'
  | G_ema_train :: tr' =>
      step_modes with_ema (mkModes (G_training m) (D_training m) true) tr'
  | G_eval :: tr' =>
      step_modes with_ema (mkModes false (D_training m) (G_ema_training m)) tr'
  | G_ema_eval :: tr' =>
      step_modes with_ema (mkModes (G_training m) (D_training m) false) tr'
  | save_and_sample _ _ :: tr' | test _ _ :: tr' =>
      step_modes with_ema (mkModes false false false) tr'
  | train _ :: tr' =>
      if G_training m && D_training m
         && (negb with_ema || G_ema_training m)
      then step_modes with_ema m tr'
      else None
  | _ :: tr' => step_modes with_ema m tr'
  end.

Definition uses_G_ema (e : event) : bool :=
  match e with
  | build_G_ema | G_ema_half | G_ema_train | G_ema_eval => true
  | _ => false
  end.

Definition log_reinitialize (r : bool) (e : event) : Prop :=
  match e with
  | new_test_log r' | new_train_log r' => r' = r
  | _ => True
  end.

Definition saves_at_multiples (every : Z) (e : event) : Prop :=
  match e with save_and_sample i _ => (every | i) | _ => True end.

Definition tests_at_multiples (every : Z) (e : event) : Prop :=
  match e with test i _ => (every | i) | _ => True end.

(** Two computations agree up to the master-only calls when they end the
    same way and make the same collective calls. *)
Definition same_collective {A} (m1 m2 : M A) : Prop :=
  snd m1 = snd m2 /\
  collective_events (fst m1) = collective_events (fst m2).

(** Scanning a trace for the iteration count its records carry: the state is
    the last value written to the counter, if any; a step call, a log
    record, a progress description, a checkpoint or an evaluation is in
    order when it carries that value. *)
Fixpoint tagged_with_counter (current : option Z) (tr : list event)
  : option (option Z) :=
  match tr with
  | [] => Some current
  | itr_write v :: tr' => tagged_with_counter (Some v) tr'
  | train i :: tr' | train_log_log i :: tr' | train_log_SVs i :: tr'
  | pbar_set_description i :: tr' | save_and_sample i _ :: tr'
  | test i _ :: tr' =>
      match current with
      | Some v => if v =? i then tagged_with_counter current tr' else None
      | None => None
      end
  | _ :: tr' => tagged_with_counter current tr'
  end.

(** ** The CelebA-HQ dataset of datasets.py *)

(** What the class sees of the operating system: [os.listdir],
    [os.path.isfile] and [Image.open].  A call of [os.listdir] or of
    [Image.open] that raises is represented by the name of the class of the
    exception it raises (FileNotFoundError, NotADirectoryError,
    PermissionError, UnidentifiedImageError, ...). *)
Record FileSystem (Image : Type) := mkFileSystem {
  listdir : string -> string + list string;
  isfile : string -> bool;
  image_open : string -> string + Image
}.

Arguments listdir {Image} _ _.
Arguments isfile {Image} _ _.
Arguments image_open {Image} _ _.

(** The exceptions that come out of the class, by the statement that raises
    them: [os.listdir] (line 26), the list indexing of line 39, which
    raises IndexError, [Image.open] (line 40) and the transform (line 41);
    the three collaborators carry the class of what they raised. *)
Inductive io_error :=
| ListdirError (exception : string)
| IndexError
| OpenError (exception : string)
| TransformError (exception : string).

(** [os.path.join] on two components, as posixpath has it: an absolute
    second component replaces the first; otherwise the two are glued with a
    single separator, none being added after an empty first component or
    one that already ends with it. *)
Definition starts_with_sep (s : string) : bool :=
  match s with
  | String c _ => Ascii.eqb c "/"%char
  | EmptyString => false
  end.

Fixpoint ends_with_sep (s : string) : bool :=
  match s with
  | EmptyString => false
  | String c EmptyString => Ascii.eqb c "/"%char
  | String _ s' => ends_with_sep s'
  end.

Definition path_join (a b : string) : string :=
  if starts_with_sep b then b
  else if String.eqb a "" || ends_with_sep a then a +:+ b
  else a +:+ "/" +:+ b.

(** [l[i]] on a Python list: a negative index counts from the end. *)
Definition list_getitem {A} (l : list A) (i : Z) : option A :=
  let n := Z.of_nat (length l) in
  if (0 <=? i) && (i <? n) then l !! Z.to_nat i
  else if (- n <=? i) && (i <? 0) then l !! Z.to_nat (n + i)
  else None.

(** An object of class [CelebAHQ].  The transform is the caller's: it
    returns a result or raises, the exception being represented by the name
    of its class. *)
Record CelebAHQ (Image Tensor : Type) := mkCelebAHQ {
  img_path : string;
  transform_img : Image -> string + Tensor;
  train_dataset : list string;
  test_dataset : list string;
  mode : bool;
  num_images : nat
}.

Arguments mkCelebAHQ {Image Tensor} _ _ _ _ _ _.
Arguments img_path {Image Tensor} _.
Arguments transform_img {Image Tensor} _ _.
Arguments train_dataset {Image Tensor} _.
Arguments test_dataset {Image Tensor} _.
Arguments mode {Image Tensor} _.
Arguments num_images {Image Tensor} _.

(** The body of the loop of [preprocess] (datasets.py, lines 27-33), run
    over the indices [range(length)]: the path of image [i] is printed and
    appended to the list the mode selects. *)
Fixpoint preprocess_loop {Image Tensor} (indices : list nat)
    (self : CelebAHQ Image Tensor) (out : list string)
  : CelebAHQ Image Tensor * list string :=
  match indices with
  | [] => (self, out)
  | i :: rest =>
      let p := path_join (img_path self) (pretty i +:+ ".jpg") in
      let out := out ++ [p] in
      let self :=
        if mode self
        then mkCelebAHQ (img_path self) (transform_img self)
               (train_dataset self ++ [p]) (test_dataset self) (mode self)
               (num_images self)
        else mkCelebAHQ (img_path self) (transform_img self)
               (train_dataset self) (test_dataset self ++ [p]) (mode self)
               (num_images self) in
      preprocess_loop rest self out
  end.

(** [preprocess] (lines 25-34): the printed lines and the outcome. *)
Definition preprocess {Image Tensor} (fs : FileSystem Image)
    (self : CelebAHQ Image Tensor)
  : list string * (io_error + CelebAHQ Image Tensor) :=
  match listdir fs (img_path self) with
  | inl e => ([], inl (ListdirError e))
  | inr names =>
      let length :=
        length (List.filter
                  (fun name => isfile fs (path_join (img_path self) name))
                  names) in
      let '(self, out) := preprocess_loop (seq 0 length) self [] in
      (out ++ ["Finished preprocessing the CelebA dataset..."], inr self)
  end.

(** [__init__] (lines 12-23). *)
Definition CelebAHQ_init {Image Tensor} (fs : FileSystem Image)
    (img_path_ : string) (transform_img_ : Image -> string + Tensor)
    (mode_ : bool)
  : list string * (io_error + CelebAHQ Image Tensor) :=
  let self := mkCelebAHQ img_path_ transform_img_ [] [] mode_ O in
  match preprocess fs self with
  | (out, inl e) => (out, inl e)
  | (out, inr self) =>
      (out,
       inr (mkCelebAHQ (img_path self) (transform_img self)
              (train_dataset self) (test_dataset self) (mode self)
              (if mode self then length (train_dataset self)
               else length (test_dataset self))))
  end.

(** [__getitem__] (lines 37-41). *)
Definition CelebAHQ_getitem {Image Tensor} (fs : FileSystem Image)
    (self : CelebAHQ Image Tensor) (index : Z) : io_error + Tensor :=
  let dataset := if mode self then train_dataset self else test_dataset self in
  match list_getitem dataset index with
  | None => inl IndexError
  | Some img_path =>
      match image_open fs img_path with
      | inl e => inl (OpenError e)
      | inr image =>
          match transform_img self image with
          | inl e => inl (TransformError e)
          | inr tensor => inr tensor
          end
      end
  end.

(** [__len__] (lines 44-46). *)
Definition CelebAHQ_len {Image Tensor} (self : CelebAHQ Image Tensor) : nat :=
  num_images self.

(** The paths of the images numbered [0] to [n - 1] under a directory. *)
Definition image_paths (dir : string) (n : nat) : list string :=
  map (fun i : nat => path_join dir (pretty i +:+ ".jpg")) (seq 0 n).

(** The list [__getitem__] and [__len__] read. *)
Definition selected_dataset {Image Tensor} (self : CelebAHQ Image Tensor)
  : list string :=
  if mode self then train_dataset self else test_dataset self.

(** A directory holding two images and a sub-directory, images being
    represented by numbers, and a transform that never raises. *)
Definition demo_fs : FileSystem nat :=
  mkFileSystem nat
    (fun dir => if String.eqb dir "imgs"
                then inr ["0.jpg"; "1.jpg"; "masks"]
                else if String.eqb dir "imgs/0.jpg"
                then inl "NotADirectoryError"
                else inl "FileNotFoundError")
    (fun p => String.eqb p "imgs/0.jpg" || String.eqb p "imgs/1.jpg")
    (fun p => if String.eqb p "imgs/0.jpg" then inr 10%nat
              else if String.eqb p "imgs/1.jpg" then inr 11%nat
              else if String.eqb p "imgs/masks" then inl "IsADirectoryError"
              else inl "FileNotFoundError").

Definition demo_transform (image : nat) : string + nat := inr (S image).

Definition demo_dataset : CelebAHQ nat nat :=
  mkCelebAHQ "imgs" demo_transform ["imgs/0.jpg"; "imgs/1.jpg"] [] true 2.

(** ** The configuration classes of nlp/configs.py *)

(** The values the class bodies assign.  A float is kept as the literal the
    source writes. *)
Inductive pyval :=
| PyNone
| PyStr (s : string)
| PyInt (n : Z)
| PyBool (b : bool)
| PyFloat (literal : string).

(** A class statement: the name of the class, the assignments of its body,
    in order, and, for a subclass, its base class.  What Python adds to
    every class object ([__name__], [__qualname__], [__module__], [__doc__],
    [__dict__], [mro], ...) is not part of it. *)
Inductive pyclass :=
| PyClass (name : string) (body : list (string * pyval))
| PySubclass (name : string) (body : list (string * pyval)) (base : pyclass).

(** The value a class body leaves bound to a name: the last assignment. *)
Fixpoint body_lookup (body : list (string * pyval)) (name : string)
  : option pyval :=
  match body with
  | [] => None
  | (k, v) :: rest =>
      match body_lookup rest name with
      | Some v' => Some v'
      | None => if String.eqb k name then Some v else None
      end
  end.

(** Attribute look-up on a class, for the names the class bodies assign:
    the class's own body first, then its base's, as along the method
    resolution order of single inheritance.  [None] says that no body along
    the chain assigns the name; nothing is said then of what Python's
    look-up does, which goes on to the attributes every class object has and
    raises AttributeError only when these do not have the name either. *)
Fixpoint class_getattr (c : pyclass) (name : string) : option pyval :=
  match c with
  | PyClass _ body => body_lookup body name
  | PySubclass _ body base =>
      match body_lookup body name with
      | Some v => Some v
      | None => class_getattr base name
      end
  end.

Definition BaseConfig : pyclass :=
  PyClass "BaseConfig"
    [ ("config_name", PyNone);
      ("tokenizer_name", PyNone);
      ("cache_dir", PyNone);
      ("task_name", PyStr "imdb");
      ("data_dir", PyStr "");
      ("max_seq_length", PyInt 128);
      ("overwrite_cache", PyBool false);
      ("output_dir", PyStr "./");
      ("overwrite_output_dir", PyBool true);
      ("do_train", PyBool true);
      ("do_eval", PyBool true);
      ("evaluate_during_training", PyBool false);
      ("per_gpu_train_batch_size", PyInt 2);
      ("per_gpu_eval_batch_size", PyInt 2);
      ("gradient_accumulation_steps", PyInt 1);
      ("learning_rate", PyFloat "1e-4");
      ("weight_decay", PyFloat "0.0");
      ("adam_epsilon", PyFloat "1e-8");
      ("max_grad_norm", PyFloat "1.0");
      ("num_train_epochs", PyInt 10);
      ("warmup_steps", PyInt 0);
      ("logging_steps", PyInt 500);
      ("save_steps", PyInt 500);
      ("save_total_limit", PyNone);
      ("eval_all_checkpoints", PyBool false);
      ("no_cuda", PyBool false);
      ("seed", PyInt 42);
      ("fp16", PyBool false);
      ("fp16_opt_level", PyStr "O1");
      ("local_rank", PyInt (-1));
      ("max_steps", PyInt (-1));
      ("smyrf", PyBool true);
      ("n_hashes", PyInt 1);
      ("k_cluster_size", PyInt 64);
      ("q_cluster_size", PyInt 64);
      ("r", PyInt 4) ].

Definition AlbertConfig : pyclass :=
  PySubclass "AlbertConfig"
    [ ("model_type", PyStr "albert");
      ("model_name_or_path", PyStr "albert-base-v2") ]
    BaseConfig.

Definition BertBaseConfig : pyclass :=
  PySubclass "BertBaseConfig"
    [ ("model_type", PyStr "bert");
      ("model_name_or_path", PyStr "bert-base-uncased") ]
    BaseConfig.

(** ** Laws of the orchestrator monad *)

Section MonadLaws.
Context {A B : Type}.
Implicit Types (m : M A) (k : A -> M B).

Lemma bind_trace m k :
  fst (bind m k) =
  fst m ++ match snd m with Ok a => fst (k a) | _ => [] end.
Proof.
  destruct m as [t [a | e |]]; simpl; try (now rewrite app_nil_r).
  now destruct (k a).
Qed.

Lemma bind_result m k :
  snd (bind m k) =
  match snd m with
  | Ok a => snd (k a)
  | Raise e => Raise e
  | OutOfFuel => OutOfFuel
  end.
Proof.
  destruct m as [t [a | e |]]; simpl; try reflexivity.
  now destruct (k a).
Qed.

Lemma bind_Ok_inv m k tr b :
  bind m k = (tr, Ok b) ->
  exists t1 a t2, m = (t1, Ok a) /\ k a = (t2, Ok b) /\ tr = t1 ++ t2.
Proof.
  destruct m as [t [a | e |]]; simpl; try discriminate.
  destruct (k a) as [t' r] eqn:Hk. intros H. inversion H; subst.
  now exists t, a, t'.
Qed.

Lemma bind_Ok m k t1 a :
  m = (t1, Ok a) -> bind m k = (t1 ++ fst (k a), snd (k a)).
Proof. intros ->. simpl. now destruct (k a). Qed.

Lemma bind_Forall (P : event -> Prop) m k :
  Forall P (fst m) -> (forall a, Forall P (fst (k a))) ->
  Forall P (fst (bind m k)).
Proof.
  intros Hm Hk. rewrite bind_trace. apply Forall_app. split; [exact Hm|].
  destruct (snd m); [apply Hk | constructor | constructor].
Qed.

Lemma bind_not_raising (bad : exn) m k :
  snd m <> Raise bad -> (forall a, snd (k a) <> Raise bad) ->
  snd (bind m k) <> Raise bad.
Proof.
  intros Hm Hk. rewrite bind_result.
  destruct (snd m) eqn:E; [apply Hk | | discriminate].
  intros H. apply Hm. now inversion H.
Qed.
End MonadLaws.

Lemma when_Forall (P : event -> Prop) b (m : M unit) :
  Forall P (fst m) -> Forall P (fst (when b m)).
Proof. destruct b; simpl; [tauto | constructor]. Qed.

Lemma emit_Forall (P : event -> Prop) e : P e -> Forall P (fst (emit e)).
Proof. intros H. simpl. now repeat constructor. Qed.

Lemma ret_Forall {A} (P : event -> Prop) (a : A) : Forall P (fst (ret a)).
Proof. constructor. Qed.

Lemma py_mod_Forall (P : event -> Prop) a b : Forall P (fst (py_mod a b)).
Proof. unfold py_mod. destruct (b =? 0); constructor. Qed.

Lemma py_assert_Forall (P : event -> Prop) b : Forall P (fst (py_assert b)).
Proof. destruct b; constructor. Qed.

Lemma getitem_Forall {V} (P : event -> Prop) (d : gmap string V) k :
  Forall P (fst (getitem d k)).
Proof. unfold getitem. destruct (d !! k); constructor. Qed.

(** A property of single events holds of a whole computation when it holds of
    each call the computation makes. *)
Ltac trace_forall :=
  repeat first
    [ apply ret_Forall
    | apply py_mod_Forall
    | apply py_assert_Forall
    | apply getitem_Forall
    | apply emit_Forall
    | apply when_Forall
    | apply bind_Forall; [| intros ?]
    | match goal with
      | |- Forall _ (fst (if ?b then _ else _)) => destruct b
      end ].

(** ** The set-up phase *)

Lemma resolve_config_recognized env c :
  recognized env c ->
  exists c', resolve_config env c = ([], Ok c') /\ resolved_from c c'.
Proof.
  intros ([r Hr] & [n Hn] & [g Hg] & [d Hd]).
  eexists. split; [| now exists r, n, g, d].
  unfold resolve_config, getitem. simpl. rewrite Hr. simpl. rewrite Hn. simpl.
  rewrite Hg. simpl. rewrite Hd. reflexivity.
Qed.

Lemma resolve_config_unrecognized env c :
  ~ recognized env c ->
  exists key, resolve_config env c = ([], Raise (KeyError key)).
Proof.
  intros Hn. unfold resolve_config, getitem.
  destruct (imsize_dict env !! dataset c) as [r|] eqn:Hr; simpl;
    [| now eexists].
  destruct (nclass_dict env !! dataset c) as [n|] eqn:Hc; simpl;
    [| now eexists].
  destruct (activation_dict env !! G_nl c) as [g|] eqn:Hg; simpl;
    [| now eexists].
  destruct (activation_dict env !! D_nl c) as [d|] eqn:Hd; simpl;
    [| now eexists].
  exfalso. apply Hn. unfold recognized. rewrite Hr, Hc, Hg, Hd. eauto.
Qed.

Lemma recognized_dec env c : recognized env c \/ ~ recognized env c.
Proof.
  unfold recognized.
  destruct (imsize_dict env !! dataset c), (nclass_dict env !! dataset c),
    (activation_dict env !! G_nl c), (activation_dict env !! D_nl c);
    first [ left; now eauto 8
          | right; intros (H1 & H2 & H3 & H4);
            first [ now inversion H1 | now inversion H2
                  | now inversion H3 | now inversion H4 ] ].
Qed.

Lemma resolve_config_Ok_inv env c tr c' :
  resolve_config env c = (tr, Ok c') ->
  recognized env c /\ tr = [] /\ resolved_from c c'.
Proof.
  intros H. destruct (recognized_dec env c) as [Hr | Hn].
  - destruct (resolve_config_recognized env c Hr) as (c'' & E & R).
    rewrite E in H. inversion H; subst. auto.
  - destruct (resolve_config_unrecognized env c Hn) as (k & E).
    rewrite E in H. discriminate.
Qed.

Lemma check_intervals_spec c :
  check_intervals c =
  ([], if num_devices c =? 0 then Raise ZeroDivisionError
       else if (save_every c mod num_devices c =? 0)
               && (test_every c mod num_devices c =? 0)
            then Ok tt else Raise AssertionError).
Proof.
  unfold check_intervals, py_mod, py_assert.
  destruct (num_devices c =? 0); [reflexivity |]. simpl.
  destruct (save_every c mod num_devices c =? 0); [| reflexivity]. simpl.
  destruct (test_every c mod num_devices c =? 0); reflexivity.
Qed.

Lemma resolved_from_keys c c' :
  resolved_from c c' ->
  resume c' = resume c /\ batch_size c' = batch_size c /\
  num_D_steps c' = num_D_steps c /\
  num_D_accumulations c' = num_D_accumulations c /\
  G_batch_size c' = G_batch_size c /\ num_devices c' = num_devices c /\
  total_steps c' = total_steps c /\ save_every c' = save_every c /\
  test_every c' = test_every c /\ sv_log_interval c' = sv_log_interval c.
Proof. intros (r & n & g & d & ->). repeat split; reflexivity. Qed.

Lemma with_skip_init_keys c :
  resume (with_skip_init c) = resume c /\
  batch_size (with_skip_init c) = batch_size c /\
  num_D_steps (with_skip_init c) = num_D_steps c /\
  num_D_accumulations (with_skip_init c) = num_D_accumulations c /\
  G_batch_size (with_skip_init c) = G_batch_size c /\
  num_devices (with_skip_init c) = num_devices c /\
  total_steps (with_skip_init c) = total_steps c /\
  save_every (with_skip_init c) = save_every c /\
  test_every (with_skip_init c) = test_every c /\
  sv_log_interval (with_skip_init c) = sv_log_interval c.
Proof.
  unfold with_skip_init. destruct (resume c) eqn:E; repeat split; auto.
Qed.

Lemma prepared_from_keys c c' :
  prepared_from c c' ->
  resume c' = resume c /\ batch_size c' = batch_size c /\
  num_D_steps c' = num_D_steps c /\
  num_D_accumulations c' = num_D_accumulations c /\
  G_batch_size c' = G_batch_size c /\ num_devices c' = num_devices c /\
  total_steps c' = total_steps c /\ save_every c' = save_every c /\
  test_every c' = test_every c /\ sv_log_interval c' = sv_log_interval c.
Proof.
  intros (c1 & R & ->).
  pose proof (resolved_from_keys _ _ R). pose proof (with_skip_init_keys c1).
  intuition congruence.
Qed.

Lemma setup_after_resolution env c c1 :
  resolve_config env c = ([], Ok c1) ->
  setup env c =
  let c' := with_skip_init c1 in
  if num_devices c' =? 0 then ([], Raise ZeroDivisionError)
  else if (save_every c' mod num_devices c' =? 0)
          && (test_every c' mod num_devices c' =? 0)
  then (setup_events env c' (itr (initial_state env c')),
        Ok (mkReady c' (sample_batch_size c') (initial_state env c')))
  else ([], Raise AssertionError).
Proof.
  intros E. unfold setup. rewrite E. cbn [bind].
  fold (with_skip_init c1). set (c' := with_skip_init c1).
  rewrite check_intervals_spec. cbv zeta.
  destruct (num_devices c' =? 0); [reflexivity |].
  destruct ((save_every c' mod num_devices c' =? 0)
            && (test_every c' mod num_devices c' =? 0)); [| reflexivity].
  unfold setup_events, initial_state, prepare_state_dict, load_weights,
    sample, when.
  destruct (ema c'), (G_fp16 c'), (D_fp16 c'), (resume c'),
    (is_master_ordinal env); reflexivity.
Qed.

(** The four ways the set-up phase can end. *)
Lemma setup_cases env c :
  (~ recognized env c /\
   exists key, setup env c = ([], Raise (KeyError key)))
  \/ (recognized env c /\ num_devices c = 0 /\
      setup env c = ([], Raise ZeroDivisionError))
  \/ (recognized env c /\ num_devices c <> 0 /\
      ~ ((num_devices c | save_every c) /\ (num_devices c | test_every c)) /\
      setup env c = ([], Raise AssertionError))
  \/ (recognized env c /\ num_devices c <> 0 /\
      (num_devices c | save_every c) /\ (num_devices c | test_every c) /\
      exists c', prepared_from c c' /\
        setup env c =
        (setup_events env c' (itr (initial_state env c')),
         Ok (mkReady c' (sample_batch_size c') (initial_state env c')))).
Proof.
  destruct (recognized_dec env c) as [Hr | Hn].
  2:{ left. split; [exact Hn |].
      destruct (resolve_config_unrecognized env c Hn) as (k & E).
      exists k. unfold setup. now rewrite E. }
  right.
  destruct (resolve_config_recognized env c Hr) as (c1 & E & R).
  assert (P : prepared_from c (with_skip_init c1)) by (now exists c1).
  destruct (prepared_from_keys _ _ P)
    as (_ & _ & _ & _ & _ & Hnd & _ & Hse & Hte & _).
  rewrite (setup_after_resolution env c c1 E). cbv zeta.
  rewrite Hnd, Hse, Hte.
  destruct (Z.eqb_spec (num_devices c) 0) as [Z0 | NZ]; [now left |].
  right.
  destruct (Z.eqb_spec (save_every c mod num_devices c) 0) as [S0 | SN];
    destruct (Z.eqb_spec (test_every c mod num_devices c) 0) as [T0 | TN];
    cbn [andb].
  - right. split; [exact Hr |]. split; [exact NZ |].
    split; [now apply Z.mod_divide |]. split; [now apply Z.mod_divide |].
    now exists (with_skip_init c1).
  - left. split; [exact Hr |]. split; [exact NZ |]. split; [| reflexivity].
    intros [_ H]. now apply Z.mod_divide in H.
  - left. split; [exact Hr |]. split; [exact NZ |]. split; [| reflexivity].
    intros [H _]. now apply Z.mod_divide in H.
  - left. split; [exact Hr |]. split; [exact NZ |]. split; [| reflexivity].
    intros [H _]. now apply Z.mod_divide in H.
Qed.

Lemma initial_state_itr env c c' :
  prepared_from c c' -> itr (initial_state env c') = start_itr env c.
Proof.
  intros P. destruct (prepared_from_keys _ _ P) as (Hr & _).
  unfold initial_state, start_itr. rewrite Hr. now destruct (resume c).
Qed.

(** ** One inner iteration *)

Lemma itr_collaborator_write f s : itr (collaborator_write f s) = itr s.
Proof. reflexivity. Qed.

Lemma itr_set_itr v s : itr (set_itr v s) = v.
Proof. reflexivity. Qed.

Lemma inner_step_spec env c g s :
  inner_step env c g s =
  let i := itr s + num_devices c in
  let s1 := set_itr i s in
  if save_every c =? 0 then (step_head env c i, Raise ZeroDivisionError)
  else
    let saved := i mod save_every c =? 0 in
    let s2 :=
      if saved then collaborator_write (save_and_sample_writes env) s1
      else s1 in
    let save_evs := if saved then save_events c i g else [] in
    if test_every c =? 0
    then (step_head env c i ++ save_evs, Raise ZeroDivisionError)
    else
      let tested := i mod test_every c =? 0 in
      (step_head env c i ++ save_evs
         ++ (if tested then test_events c i g else []),
       Ok (if tested then collaborator_write (test_writes env) s2 else s2)).
Proof.
  unfold inner_step, step_head, save_events, test_events, sv_due, py_mod,
    when. cbv zeta.
  set (i := itr s + num_devices c).
  destruct (Z.ltb_spec 0 (sv_log_interval c)) as [Hsv | Hsv];
    [destruct (Z.eqb_spec (sv_log_interval c) 0) as [E | _]; [lia |] |];
    repeat (cbn [bind emit ret raise fst snd app andb];
            rewrite ?itr_collaborator_write, ?itr_set_itr;
            match goal with
            | |- context [if ?b then _ else _] => destruct b
            end);
    reflexivity.
Qed.

Lemma itr_writes_app t1 t2 :
  itr_writes (t1 ++ t2) = itr_writes t1 ++ itr_writes t2.
Proof.
  induction t1 as [| e t1 IH]; [reflexivity |].
  destruct e; simpl; now rewrite ?IH.
Qed.

Lemma inner_iterations_app t1 t2 :
  inner_iterations (t1 ++ t2) = (inner_iterations t1 + inner_iterations t2)%nat.
Proof.
  induction t1 as [| e t1 IH]; [reflexivity |].
  destruct e; simpl; now rewrite ?IH.
Qed.

Lemma step_order_app pending t1 t2 :
  step_order pending (t1 ++ t2) =
  match step_order pending t1 with
  | Some p => step_order p t2
  | None => None
  end.
Proof.
  revert pending. induction t1 as [| e t1 IH]; intros pending;
    [reflexivity |].
  destruct e; simpl; try apply IH.
  destruct pending as [w |]; [| reflexivity].
  destruct (w =? at_itr); [apply IH | reflexivity].
Qed.

Lemma quiet_nil : quiet [].
Proof. repeat split. constructor. Qed.

Lemma quiet_app t1 t2 : quiet t1 -> quiet t2 -> quiet (t1 ++ t2).
Proof.
  intros (W1 & C1 & O1 & L1) (W2 & C2 & O2 & L2). repeat split.
  - now rewrite itr_writes_app, W1, W2.
  - now rewrite inner_iterations_app, C1, C2.
  - intros p. now rewrite step_order_app, O1, O2.
  - apply Forall_app. now split.
Qed.

Lemma quiet_save_events c i g : quiet (save_events c i g).
Proof.
  unfold save_events.
  destruct (G_eval_mode c), (ema c); repeat split; now repeat constructor.
Qed.

Lemma quiet_test_events c i g : quiet (test_events c i g).
Proof.
  unfold test_events.
  destruct (G_eval_mode c); repeat split; now repeat constructor.
Qed.

Lemma step_head_facts env c i :
  itr_writes (step_head env c i) = [i] /\
  inner_iterations (step_head env c i) = 1%nat /\
  forall pending, step_order pending (step_head env c i) = Some None.
Proof.
  unfold step_head.
  destruct (is_master_ordinal env), (ema c),
    ((0 <? sv_log_interval c) && (i mod sv_log_interval c =? 0));
    cbn; rewrite ?Z.eqb_refl; now repeat split.
Qed.

(** The events of an inner iteration are those of its head followed by a
    quiet tail, whatever its outcome. *)
Lemma inner_step_shape env c g s :
  exists tail,
    fst (inner_step env c g s) =
      step_head env c (itr s + num_devices c) ++ tail /\
    quiet tail.
Proof.
  rewrite inner_step_spec. cbv zeta.
  destruct (save_every c =? 0).
  { exists []. split; [now rewrite app_nil_r | apply quiet_nil]. }
  destruct (test_every c =? 0).
  { eexists. split; [reflexivity |].
    destruct (_ =? 0); [apply quiet_save_events | apply quiet_nil]. }
  eexists. split; [reflexivity |].
  apply quiet_app.
  - destruct (_ =? 0); [apply quiet_save_events | apply quiet_nil].
  - destruct (_ =? 0); [apply quiet_test_events | apply quiet_nil].
Qed.

Lemma inner_step_writes env c g s :
  itr_writes (fst (inner_step env c g s)) = [itr s + num_devices c].
Proof.
  destruct (inner_step_shape env c g s) as (tail & -> & (W & _ & _ & _)).
  rewrite itr_writes_app, W, app_nil_r. apply step_head_facts.
Qed.

Lemma inner_step_count env c g s :
  inner_iterations (fst (inner_step env c g s)) = 1%nat.
Proof.
  destruct (inner_step_shape env c g s) as (tail & -> & (_ & C & _ & _)).
  rewrite inner_iterations_app, C.
  now destruct (step_head_facts env c (itr s + num_devices c)) as (_ & -> & _).
Qed.

Lemma inner_step_order env c g s pending :
  step_order pending (fst (inner_step env c g s)) = Some None.
Proof.
  destruct (inner_step_shape env c g s) as (tail & -> & (_ & _ & O & _)).
  rewrite step_order_app.
  destruct (step_head_facts env c (itr s + num_devices c)) as (_ & _ & ->).
  apply O.
Qed.

Lemma inner_step_Ok_itr env c g s s' :
  snd (inner_step env c g s) = Ok s' -> itr s' = itr s + num_devices c.
Proof.
  rewrite inner_step_spec. cbv zeta.
  destruct (save_every c =? 0); [discriminate |].
  destruct (test_every c =? 0); [discriminate |].
  simpl. intros H. inversion H; subst; clear H.
  destruct (_ =? 0), (_ =? 0); reflexivity.
Qed.

Lemma inner_step_outcome env c g s :
  (save_every c <> 0 /\ test_every c <> 0 /\
   exists s', snd (inner_step env c g s) = Ok s')
  \/ ((save_every c = 0 \/ test_every c = 0) /\
      snd (inner_step env c g s) = Raise ZeroDivisionError).
Proof.
  rewrite inner_step_spec. cbv zeta.
  destruct (Z.eqb_spec (save_every c) 0) as [S0 | SN]; [right; auto |].
  destruct (Z.eqb_spec (test_every c) 0) as [T0 | TN]; [right; auto |].
  left. repeat split; auto. simpl. eauto.
Qed.

(** ** The loops *)

Lemma for_loader_S n env c g s :
  for_loader (S n) env c g s =
  let* s1 := inner_step env c g s in
  if total_steps c <=? itr s1 then ret s1 else for_loader n env c g s1.
Proof. reflexivity. Qed.

Lemma train_loop_eq fuel env c g s :
  train_loop fuel env c g s =
  if itr s <? total_steps c
  then match fuel with
       | O => out_of_fuel
       | S fuel' =>
           emit per_device_loader >>
           let* s1 := for_loader (loader_len env) env c g s in
           emit pbar_close >> train_loop fuel' env c g s1
       end
  else ret s.
Proof. destruct fuel; reflexivity. Qed.

Lemma bind_emit {B} e (k : unit -> M B) :
  bind (emit e) k = (e :: fst (k tt), snd (k tt)).
Proof. simpl. now destruct (k tt). Qed.

Lemma last_cons_default (v : Z) l d : List.last (v :: l) d = List.last l v.
Proof.
  revert v d. induction l as [| w l IH]; intros v d; [reflexivity |].
  change (List.last (v :: w :: l) d) with (List.last (w :: l) d).
  now rewrite !IH.
Qed.

Lemma last_app_default (l1 l2 : list Z) d :
  List.last (l1 ++ l2) d = List.last l2 (List.last l1 d).
Proof.
  revert d. induction l1 as [| v l1 IH]; intros d; [reflexivity |].
  rewrite <- app_comm_cons, !last_cons_default. apply IH.
Qed.

Lemma advances_by_app d from l1 l2 :
  advances_by d from l1 -> advances_by d (List.last l1 from) l2 ->
  advances_by d from (l1 ++ l2).
Proof.
  revert from. induction l1 as [| v l1 IH]; intros from H1 H2;
    [exact H2 |].
  destruct H1 as [-> H1]. split; [reflexivity |].
  apply IH; [exact H1 |]. now rewrite last_cons_default in H2.
Qed.

Lemma tracks_ret d s : tracks d (itr s) (ret s).
Proof.
  split; [exact I |]. split; [intros p; now exists p |].
  intros s' H. inversion H; subst. simpl. split; [reflexivity | lia].
Qed.

Lemma tracks_bind d i0 (m : M StateDict) (k : StateDict -> M StateDict) :
  tracks d i0 m ->
  (forall s1, snd m = Ok s1 -> tracks d (itr s1) (k s1)) ->
  tracks d i0 (bind m k).
Proof.
  intros (A1 & O1 & F1) Hk. unfold tracks.
  rewrite bind_trace, bind_result.
  destruct (snd m) as [s1 | e |] eqn:E.
  - destruct (Hk s1 eq_refl) as (A2 & O2 & F2).
    destruct (F1 s1 eq_refl) as (L1 & C1).
    split; [| split].
    + rewrite itr_writes_app. apply advances_by_app; [exact A1 |].
      now rewrite <- L1.
    + intros p. rewrite step_order_app. destruct (O1 p) as (p1 & ->).
      apply O2.
    + intros s' Hs'. destruct (F2 s' Hs') as (L2 & C2). split.
      * now rewrite itr_writes_app, last_app_default, <- L1.
      * rewrite inner_iterations_app. lia.
  - rewrite app_nil_r. repeat split; auto. all: discriminate.
  - rewrite app_nil_r. repeat split; auto. all: discriminate.
Qed.

Lemma tracks_inner_step env c g s :
  tracks (num_devices c) (itr s) (inner_step env c g s).
Proof.
  split; [| split].
  - rewrite inner_step_writes. simpl. auto.
  - intros p. rewrite inner_step_order. eauto.
  - intros s' H. rewrite inner_step_writes, inner_step_count.
    rewrite (inner_step_Ok_itr _ _ _ _ _ H). simpl. lia.
Qed.

Lemma tracks_for_loader n env c g s :
  tracks (num_devices c) (itr s) (for_loader n env c g s).
Proof.
  revert s. induction n as [| n IH]; intros s; [apply tracks_ret |].
  rewrite for_loader_S. apply tracks_bind; [apply tracks_inner_step |].
  intros s1 _. destruct (total_steps c <=? itr s1);
    [apply tracks_ret | apply IH].
Qed.

Lemma tracks_skip d i0 e (m : M StateDict) :
  itr_writes [e] = [] -> is_train e = false ->
  tracks d i0 m -> tracks d i0 (emit e >> m).
Proof.
  intros W T (A & O & F). unfold tracks. rewrite bind_emit.
  cbn [fst snd].
  assert (Wc : forall t, itr_writes (e :: t) = itr_writes t)
    by (intros t; destruct e; simpl in *; congruence).
  assert (Cc : forall t, inner_iterations (e :: t) = inner_iterations t)
    by (intros t; destruct e; simpl in *; congruence).
  assert (Oc : forall p t, step_order p (e :: t) = step_order p t)
    by (intros p t; destruct e; simpl in *; congruence).
  rewrite Wc, Cc. repeat split; auto.
  - intros p. rewrite Oc. apply O.
  - now apply F.
  - now apply F.
Qed.

Lemma tracks_train_loop fuel env c g s :
  tracks (num_devices c) (itr s) (train_loop fuel env c g s).
Proof.
  revert s. induction fuel as [| fuel IH]; intros s; rewrite train_loop_eq;
    destruct (itr s <? total_steps c); try apply tracks_ret.
  - repeat split; simpl; eauto; discriminate.
  - apply tracks_skip; [reflexivity | reflexivity |].
    apply tracks_bind; [apply tracks_for_loader |].
    intros s1 _. apply tracks_skip; [reflexivity | reflexivity | apply IH].
Qed.

(** Every step of a pass starts below [total_steps]: the first by the
    [while] test, the later ones because the [break] did not fire. *)
Lemma for_loader_bound n env c g s tr s' :
  for_loader n env c g s = (tr, Ok s') ->
  itr s < total_steps c ->
  itr s' = itr s \/ itr s' - num_devices c < total_steps c.
Proof.
  revert s tr. induction n as [| n IH]; intros s tr H Hlt.
  - inversion H; subst. now left.
  - rewrite for_loader_S in H.
    apply bind_Ok_inv in H as (t1 & s1 & t2 & E1 & E2 & ->).
    assert (I1 : itr s1 = itr s + num_devices c)
      by (apply (inner_step_Ok_itr env c g); now rewrite E1).
    destruct (Z.leb_spec (total_steps c) (itr s1)) as [Hge | Hlt1].
    + inversion E2; subst. right. lia.
    + destruct (IH _ _ E2 Hlt1) as [-> | Hb]; right; lia.
Qed.

Lemma for_loader_progress n env c g s tr s' :
  for_loader (S n) env c g s = (tr, Ok s') ->
  (1 <= inner_iterations tr)%nat.
Proof.
  rewrite for_loader_S. intros H.
  apply bind_Ok_inv in H as (t1 & s1 & t2 & E1 & E2 & ->).
  rewrite inner_iterations_app.
  pose proof (inner_step_count env c g s) as C. rewrite E1 in C.
  simpl in C. lia.
Qed.

Lemma train_loop_bound fuel env c g s tr s' :
  train_loop fuel env c g s = (tr, Ok s') ->
  total_steps c <= itr s' /\
  (itr s' = itr s \/ itr s' - num_devices c < total_steps c).
Proof.
  revert s tr. induction fuel as [| fuel IH]; intros s tr H;
    rewrite train_loop_eq in H; unfold out_of_fuel, ret in H;
    destruct (Z.ltb_spec (itr s) (total_steps c)) as [Hlt | Hge];
    try discriminate;
    try (inversion H; subst; split; [lia | now left]).
  rewrite bind_emit in H.
  destruct (bind _ _) as [t r] eqn:E in H. simpl in H.
  inversion H; subst; clear H.
  apply bind_Ok_inv in E as (t1 & s1 & t2 & E1 & E2 & ->).
  rewrite bind_emit in E2. inversion E2 as [[Ht Hr]]; clear E2.
  destruct (train_loop fuel env c g s1) as [t3 r3] eqn:E3.
  simpl in Hr. subst r3.
  destruct (IH _ _ E3) as (Hge & Hb). split; [exact Hge |].
  destruct (for_loader_bound _ _ _ _ _ _ _ E1 Hlt) as [F | F];
    destruct Hb as [B | B]; first [left; lia | right; lia].
Qed.

Lemma for_loader_total n env c g s :
  save_every c <> 0 -> test_every c <> 0 ->
  exists tr s', for_loader n env c g s = (tr, Ok s').
Proof.
  intros HS HT. revert s. induction n as [| n IH]; intros s.
  - now exists [], s.
  - rewrite for_loader_S.
    destruct (inner_step_outcome env c g s)
      as [(_ & _ & s1 & E) | ([? | ?] & _)]; try contradiction.
    destruct (inner_step env c g s) as [t1 r1] eqn:E1. simpl in E. subst r1.
    cbn [bind].
    destruct (total_steps c <=? itr s1).
    + simpl. eauto.
    + destruct (IH s1) as (t2 & s2 & ->). eauto.
Qed.

(** Termination: with a non-empty loader, a positive device count and
    non-zero intervals, enough fuel lets the loop end normally. *)
Lemma train_loop_terminates env c g :
  0 < num_devices c -> save_every c <> 0 -> test_every c <> 0 ->
  (0 < loader_len env)%nat ->
  forall s, exists tr s',
    train_loop (Z.to_nat (total_steps c - itr s)) env c g s = (tr, Ok s').
Proof.
  intros Hnd HS HT HL.
  assert (G : forall fuel s, (Z.to_nat (total_steps c - itr s) <= fuel)%nat ->
            exists tr s', train_loop fuel env c g s = (tr, Ok s')).
  { induction fuel as [| fuel IH]; intros s Hf; rewrite train_loop_eq;
      destruct (Z.ltb_spec (itr s) (total_steps c)) as [Hlt | Hge];
      try (now exists [], s); [lia |].
    rewrite bind_emit.
    destruct (for_loader_total (loader_len env) env c g s HS HT)
      as (t1 & s1 & E1).
    rewrite (bind_Ok _ _ _ _ E1), bind_emit. cbn [fst snd].
    assert (P : itr s + num_devices c <= itr s1).
    { destruct (loader_len env) as [| n] eqn:EL; [lia |].
      pose proof (for_loader_progress _ _ _ _ _ _ _ E1) as P1.
      destruct (tracks_for_loader (S n) env c g s) as (_ & _ & F).
      rewrite E1 in F. destruct (F s1 eq_refl) as (_ & C). simpl in C. nia. }
    destruct (IH s1) as (t2 & s2 & E2); [lia |].
    rewrite E2. simpl. eauto. }
  intros s. now apply G.
Qed.

Lemma for_loader_Forall (P : event -> Prop) n env c g :
  (forall s, Forall P (fst (inner_step env c g s))) ->
  forall s, Forall P (fst (for_loader n env c g s)).
Proof.
  intros Hstep. induction n as [| n IH]; intros s; [constructor |].
  rewrite for_loader_S. apply bind_Forall; [apply Hstep |].
  intros s1. destruct (total_steps c <=? itr s1); [constructor | apply IH].
Qed.

Lemma train_loop_Forall (P : event -> Prop) fuel env c g :
  (forall s, Forall P (fst (inner_step env c g s))) ->
  P per_device_loader -> P pbar_close ->
  forall s, Forall P (fst (train_loop fuel env c g s)).
Proof.
  intros Hstep Hl Hc. induction fuel as [| fuel IH]; intros s;
    rewrite train_loop_eq; destruct (itr s <? total_steps c);
    try (now constructor).
  apply bind_Forall; [now apply emit_Forall | intros _].
  apply bind_Forall; [now apply for_loader_Forall |].
  intros s1. apply bind_Forall; [now apply emit_Forall | intros _; apply IH].
Qed.

(** The two ways [run] can go: the set-up phase raises before doing
    anything, or it succeeds and the training loop takes over. *)
Lemma run_cases fuel env c :
  (exists e, setup env c = ([], Raise e) /\ run fuel env c = ([], Raise e))
  \/ (exists c',
        prepared_from c c' /\
        setup env c =
          (setup_events env c' (start_itr env c),
           Ok (mkReady c' (sample_batch_size c') (initial_state env c'))) /\
        run fuel env c =
          (setup_events env c' (start_itr env c)
             ++ fst (train_loop fuel env c' (sample_batch_size c')
                       (initial_state env c')),
           snd (train_loop fuel env c' (sample_batch_size c')
                  (initial_state env c')))).
Proof.
  unfold run.
  destruct (setup_cases env c)
    as [(_ & k & E) | [(_ & _ & E) | [(_ & _ & _ & E)
       | (_ & _ & _ & _ & c' & P & E)]]].
  1-3: left; eexists; split; [exact E | now rewrite E].
  right. exists c'. rewrite (initial_state_itr env c c' P) in E.
  split; [exact P |]. split; [exact E |].
  now rewrite (bind_Ok _ _ _ _ E).
Qed.

Lemma run_Forall (P : event -> Prop) fuel env c :
  (forall c', prepared_from c c' ->
     Forall P (setup_events env c' (start_itr env c)) /\
     forall s, Forall P (fst (inner_step env c' (sample_batch_size c') s))) ->
  P per_device_loader -> P pbar_close ->
  Forall P (fst (run fuel env c)).
Proof.
  intros H Hl Hc.
  destruct (run_cases fuel env c) as [(e & _ & ->) | (c' & Pc & _ & ->)];
    [constructor |].
  destruct (H c' Pc) as (Hs & Hi). cbn [fst].
  apply Forall_app. split; [exact Hs |]. now apply train_loop_Forall.
Qed.

Lemma train_loop_no_assertion fuel env c g s :
  snd (train_loop fuel env c g s) <> Raise AssertionError.
Proof.
  revert s. induction fuel as [| fuel IH]; intros s; rewrite train_loop_eq;
    destruct (itr s <? total_steps c); try discriminate.
  apply bind_not_raising; [discriminate | intros _].
  apply bind_not_raising.
  - generalize (loader_len env). intros n. revert s.
    induction n as [| n IHn]; intros s; [discriminate |].
    rewrite for_loader_S. apply bind_not_raising.
    + destruct (inner_step_outcome env c g s)
        as [(_ & _ & s' & ->) | (_ & ->)]; discriminate.
    + intros s1. destruct (total_steps c <=? itr s1);
        [discriminate | apply IHn].
  - intros s1. apply bind_not_raising; [discriminate | intros _; apply IH].
Qed.

Ltac list_forall :=
  repeat (apply Forall_app; split);
  repeat match goal with
    | |- Forall _ (if ?b then _ else _) => destruct b
    | |- Forall _ [] => constructor
    | |- Forall _ (_ :: _) => constructor
    end.

(** ** Properties of the set-up phase *)

(** C4, as the code has it: on every fresh (non-resume) run the State
    Dictionary handed to the training loop has its iteration count, both save
    counters and the best-IS bookmark at zero, and its best-FID bookmark at
    999999, no training step having run before. *)
Theorem fresh_run_state_dict env config tr ready :
  resume config = false ->
  setup env config = (tr, Ok ready) ->
  itr (ready_state ready) = 0 /\ save_num (ready_state ready) = 0 /\
  save_best_num (ready_state ready) = 0 /\ best_IS (ready_state ready) = 0 /\
  best_FID (ready_state ready) = 999999 /\
  inner_iterations tr = 0%nat /\ itr_writes tr = [].
Proof.
  intros Hres E.
  destruct (setup_cases env config)
    as [(_ & k & E') | [(_ & _ & E') | [(_ & _ & _ & E')
       | (_ & _ & _ & _ & c' & P & E')]]];
    rewrite E' in E; try discriminate.
  inversion E; subst; clear E. cbn [ready_state].
  destruct (prepared_from_keys _ _ P) as (Hr & _).
  unfold initial_state. rewrite Hr, Hres. cbn.
  repeat (split; [reflexivity |]).
  unfold setup_events.
  destruct (ema c'), (G_fp16 c'), (D_fp16 c'), (is_master_ordinal env);
    rewrite Hr, Hres; split; reflexivity.
Qed.

Lemma fresh_run_state_dict_witness :
  resume fresh_config = false /\
  exists tr ready,
    setup fresh_env fresh_config = (tr, Ok ready) /\
    itr (ready_state ready) = 0 /\ save_num (ready_state ready) = 0 /\
    save_best_num (ready_state ready) = 0 /\
    best_IS (ready_state ready) = 0 /\
    best_FID (ready_state ready) = 999999 /\
    inner_iterations tr = 0%nat /\ itr_writes tr = [].
Proof.
  split; [reflexivity |].
  eexists. eexists. split; [vm_compute; reflexivity |].
  apply (fresh_run_state_dict fresh_env fresh_config);
    [reflexivity | vm_compute; reflexivity].
Defined.

(** C4 as stated fails: on a fresh run the best-FID bookmark starts at
    999999, so the State Dictionary is not zero-valued. *)
Lemma fresh_run_not_zero_valued :
  resume fresh_config = false /\
  exists tr ready,
    setup fresh_env fresh_config = (tr, Ok ready) /\
    ~ zero_valued (ready_state ready).
Proof.
  split; [reflexivity |]. eexists. eexists.
  split; [vm_compute; reflexivity |].
  intros (_ & _ & _ & _ & H). vm_compute in H. discriminate.
Qed.

(** C5: a configuration whose dataset identifier or one of whose
    activation-function identifiers is not a key of its table makes [run]
    fail with the configuration error (Python's KeyError, raised by the
    look-up of lines 51-54) before any event of set-up or training. *)
Theorem run_unrecognized_identifier fuel env config :
  ~ recognized env config ->
  exists e, ConfigError e /\ run fuel env config = ([], Raise e).
Proof.
  intros Hn.
  destruct (resolve_config_unrecognized env config Hn) as (k & E).
  exists (KeyError k). split; [now exists k |].
  unfold run, setup. now rewrite E.
Qed.

Lemma run_unrecognized_identifier_witness :
  exists e, ConfigError e /\
    run 3 fresh_env unknown_dataset_config = ([], Raise e).
Proof.
  apply (run_unrecognized_identifier 3 fresh_env unknown_dataset_config).
  intros (H & _). vm_compute in H. destruct H as [x H]. discriminate.
Defined.

(** C6: every request [run] makes to the Dataset Provider asks for
    batch_size * num_D_steps * num_D_accumulations, and a set-up that
    succeeds makes that request. *)
Theorem data_loader_batch_size fuel env config :
  Forall
    (requests_batch
       (batch_size config * num_D_steps config * num_D_accumulations config))
    (fst (run fuel env config)) /\
  (forall tr ready, setup env config = (tr, Ok ready) ->
     In (get_data_loaders
           (batch_size config * num_D_steps config
            * num_D_accumulations config)
           (start_itr env config)) tr).
Proof.
  split.
  - apply run_Forall; try exact I.
    intros c' P.
    destruct (prepared_from_keys _ _ P) as (_ & Hb & Hs & Ha & _).
    split.
    + unfold setup_events, D_batch_size. rewrite Hb, Hs, Ha.
      list_forall; simpl; auto.
    + intros s. unfold inner_step, sv_due. trace_forall; simpl; auto.
  - intros tr ready E.
    destruct (run_cases 0 env config) as [(e & E' & _) | (c' & P & E' & _)];
      rewrite E' in E; [discriminate |].
    inversion E; subst; clear E.
    destruct (prepared_from_keys _ _ P) as (_ & Hb & Hs & Ha & _).
    unfold setup_events, D_batch_size. rewrite Hb, Hs, Ha.
    rewrite !in_app_iff. do 8 right. now left.
Qed.

Lemma data_loader_batch_size_witness :
  exists tr ready,
    setup fresh_env fresh_config = (tr, Ok ready) /\
    In (get_data_loaders (64 * 1 * 8) 0) tr.
Proof.
  eexists. eexists. split; [vm_compute; reflexivity |].
  eapply (proj2 (data_loader_batch_size 0 fresh_env fresh_config)).
  vm_compute. reflexivity.
Defined.

(** C9, as the code has it: when save_every or test_every is not an exact
    multiple of num_devices, [run] fails before seeding, model construction
    or training (no event at all is performed); the failure is the
    assertion error for every configuration whose identifiers are recognized
    and whose num_devices is not zero, that is whenever the two [assert]
    statements are reached and can be evaluated, the KeyError of lines 51-54
    when an identifier is not recognized, and the ZeroDivisionError of line
    61 when the identifiers are recognized and num_devices is zero; when
    both are multiples of num_devices, [run] never fails with an assertion
    error. *)
Theorem run_interval_assertions fuel env config :
  (~ (num_devices config | save_every config) \/
   ~ (num_devices config | test_every config) ->
   fst (run fuel env config) = [] /\
   (exists e, snd (run fuel env config) = Raise e) /\
   (recognized env config -> num_devices config <> 0 ->
    run fuel env config = ([], Raise AssertionError)) /\
   (~ recognized env config ->
    exists key, run fuel env config = ([], Raise (KeyError key))) /\
   (recognized env config -> num_devices config = 0 ->
    run fuel env config = ([], Raise ZeroDivisionError))) /\
  ((num_devices config | save_every config) ->
   (num_devices config | test_every config) ->
   snd (run fuel env config) <> Raise AssertionError).
Proof.
  split.
  - intros Hbad. unfold run.
    destruct (setup_cases env config)
      as [(Hn & k & E) | [(Hr & Hz & E) | [(Hr & Hnz & _ & E)
         | (_ & _ & Hs & Ht & _)]]]; [| | | tauto];
      rewrite E; cbn; (split; [reflexivity |]); (split; [eauto |]);
      (split; [intros ? ?; try reflexivity; contradiction |]);
      (split; [intros ?; try contradiction; eauto |]);
      intros ? ?; try reflexivity; contradiction.
  - intros Hs Ht.
    destruct (run_cases fuel env config) as [(e & E & ->) | (c' & _ & _ & ->)].
    + destruct (setup_cases env config)
        as [(_ & k & E') | [(_ & _ & E') | [(_ & _ & Hb & _) | (_ & _ & _ & _
           & c' & _ & E')]]]; try tauto; rewrite E' in E;
        inversion E; subst; discriminate.
    + apply train_loop_no_assertion.
Qed.

Lemma run_interval_assertions_witness :
  (~ (num_devices misaligned_config | save_every misaligned_config) \/
   ~ (num_devices misaligned_config | test_every misaligned_config)) /\
  recognized fresh_env misaligned_config /\
  num_devices misaligned_config <> 0 /\
  run 3 fresh_env misaligned_config = ([], Raise AssertionError) /\
  (num_devices fresh_config | save_every fresh_config) /\
  (num_devices fresh_config | test_every fresh_config) /\
  snd (run 3 fresh_env fresh_config) <> Raise AssertionError.
Proof.
  assert (B : ~ (num_devices misaligned_config | save_every misaligned_config))
    by (intros [k Hk]; unfold misaligned_config, demo_config in Hk;
        cbn [save_every num_devices] in Hk; lia).
  assert (R : recognized fresh_env misaligned_config)
    by (repeat split; vm_compute; eauto).
  assert (N : num_devices misaligned_config <> 0) by (vm_compute; discriminate).
  assert (S : (num_devices fresh_config | save_every fresh_config))
    by (exists 2; reflexivity).
  assert (T : (num_devices fresh_config | test_every fresh_config))
    by (exists 2; reflexivity).
  split; [now left |]. split; [exact R |]. split; [exact N |].
  split.
  - apply (proj1 (run_interval_assertions 3 fresh_env misaligned_config));
      [now left | exact R | exact N].
  - split; [exact S |]. split; [exact T |].
    exact (proj2 (run_interval_assertions 3 fresh_env fresh_config) S T).
Defined.

(** C9 as stated fails: with a dataset no table knows and save_every = 6 on
    four devices, [run] fails on the look-up of line 51, which comes before
    the assertions of lines 61-62, with KeyError and not with the assertion
    error. *)
Lemma unknown_dataset_precedes_assertion :
  ~ (num_devices unknown_misaligned_config
     | save_every unknown_misaligned_config) /\
  run 3 fresh_env unknown_misaligned_config
    = ([], Raise (KeyError "imagenet")) /\
  snd (run 3 fresh_env unknown_misaligned_config) <> Raise AssertionError.
Proof.
  split; [| split].
  - intros [k Hk]. unfold unknown_misaligned_config, demo_config in Hk.
    cbn [save_every num_devices] in Hk. lia.
  - vm_compute. reflexivity.
  - vm_compute. discriminate.
Qed.

(** C10: every use of the sampling closure -- the fixed sample drawn during
    set-up and the closure handed to the checkpoint manager and to the
    evaluation engine -- draws max(G_batch_size, batch_size) samples, so a
    G_batch_size below batch_size is ignored and batch_size is used. *)
Theorem sampling_batch_size fuel env config :
  Forall (samples_with (Z.max (G_batch_size config) (batch_size config)))
    (fst (run fuel env config)) /\
  (forall tr ready, setup env config = (tr, Ok ready) ->
     ready_sample_batch ready
       = Z.max (G_batch_size config) (batch_size config) /\
     In (prepare_z_y (Z.max (G_batch_size config) (batch_size config))) tr) /\
  (G_batch_size config < batch_size config ->
   Forall (samples_with (batch_size config)) (fst (run fuel env config))).
Proof.
  assert (A : Forall
            (samples_with (Z.max (G_batch_size config) (batch_size config)))
            (fst (run fuel env config))).
  { apply run_Forall; try exact I.
    intros c' P.
    destruct (prepared_from_keys _ _ P) as (_ & Hb & _ & _ & Hg & _).
    unfold sample_batch_size. rewrite Hb, Hg. split.
    - unfold setup_events, sample_batch_size. rewrite Hb, Hg.
      list_forall; simpl; auto.
    - intros s. unfold inner_step, sv_due. trace_forall; simpl; auto. }
  split; [exact A |]. split.
  - intros tr ready E.
    destruct (run_cases 0 env config) as [(e & E' & _) | (c' & P & E' & _)];
      rewrite E' in E; [discriminate |].
    inversion E; subst; clear E.
    destruct (prepared_from_keys _ _ P) as (_ & Hb & _ & _ & Hg & _).
    unfold setup_events, sample_batch_size. cbn [ready_sample_batch].
    rewrite Hb, Hg. split; [reflexivity |].
    rewrite !in_app_iff. do 8 right. simpl. auto.
  - intros Hlt. now rewrite Z.max_r in A by lia.
Qed.

Lemma sampling_batch_size_witness :
  G_batch_size fresh_config < batch_size fresh_config /\
  Forall (samples_with (batch_size fresh_config))
    (fst (run 3 fresh_env fresh_config)).
Proof.
  assert (L : G_batch_size fresh_config < batch_size fresh_config)
    by (vm_compute; reflexivity).
  split; [exact L |].
  exact (proj2 (proj2 (sampling_batch_size 3 fresh_env fresh_config)) L).
Defined.

(** ** Properties of the training loop *)

Lemma sv_logs_app t1 t2 : sv_logs (t1 ++ t2) = sv_logs t1 ++ sv_logs t2.
Proof.
  induction t1 as [| e t1 IH]; [reflexivity |].
  destruct e; simpl; now rewrite ?IH.
Qed.

Lemma sv_logs_no_write tr :
  Forall (fun e => is_train_log_write e = false) tr -> sv_logs tr = [].
Proof.
  induction 1 as [| e tr He _ IH]; [reflexivity |].
  destruct e; simpl in *; try exact IH. discriminate.
Qed.

Lemma inner_step_sv_logs env c g s :
  sv_logs (fst (inner_step env c g s)) =
  if (0 <? sv_log_interval c)
     && ((itr s + num_devices c) mod sv_log_interval c =? 0)
     && is_master_ordinal env
  then [itr s + num_devices c] else [].
Proof.
  destruct (inner_step_shape env c g s) as (tail & -> & (_ & _ & _ & L)).
  rewrite sv_logs_app, (sv_logs_no_write tail L), app_nil_r.
  unfold step_head.
  destruct (is_master_ordinal env), (ema c),
    ((0 <? sv_log_interval c)
     && ((itr s + num_devices c) mod sv_log_interval c =? 0));
    reflexivity.
Qed.

Lemma setup_events_quiet env c start : quiet (setup_events env c start).
Proof.
  unfold setup_events.
  destruct (ema c), (G_fp16 c), (D_fp16 c), (resume c),
    (is_master_ordinal env); repeat split; now repeat constructor.
Qed.

Lemma advances_nondecreasing d from l :
  0 <= d -> advances_by d from l -> nondecreasing from l.
Proof.
  intros Hd. revert from. induction l as [| v l IH]; intros from; [easy |].
  intros [-> H]. split; [lia | now apply IH].
Qed.

(** C2: in every inner iteration the write of the advanced counter comes
    before the call of the step function, and the call observes the advanced
    count; over a whole run, every step call follows a counter write made
    since the previous call and observes the value written. *)
Theorem step_follows_counter_write :
  (forall env c g s, exists before after,
     fst (inner_step env c g s) =
       before ++ [itr_write (itr s + num_devices c); G_train; D_train]
         ++ (if ema c then [G_ema_train] else [])
         ++ [to_device (D_fp16 c); train (itr s + num_devices c)] ++ after /\
     inner_iterations before = 0%nat /\ itr_writes before = [] /\
     inner_iterations after = 0%nat /\ itr_writes after = []) /\
  (forall fuel env config,
     exists p, step_order None (fst (run fuel env config)) = Some p).
Proof.
  split.
  - intros env c g s.
    destruct (inner_step_shape env c g s) as (tail & -> & (W & C & _ & _)).
    unfold step_head.
    exists (if is_master_ordinal env then [pbar_update (num_devices c)]
            else []).
    eexists. rewrite <- !app_assoc. split; [reflexivity |].
    rewrite !inner_iterations_app, !itr_writes_app, W, C.
    destruct (is_master_ordinal env),
      ((0 <? sv_log_interval c)
       && ((itr s + num_devices c) mod sv_log_interval c =? 0));
      repeat split; reflexivity.
  - intros fuel env config.
    destruct (run_cases fuel env config)
      as [(e & _ & ->) | (c' & _ & _ & ->)]; [now exists None |].
    cbn [fst]. rewrite step_order_app.
    destruct (setup_events_quiet env c' (start_itr env config))
      as (_ & _ & -> & _).
    apply tracks_train_loop.
Qed.

(** C3, as the code has it: over a run, the values written to the State
    Dictionary's iteration counter start from the run's starting count and
    each is the previous one plus num_devices, an integer; when num_devices
    is not negative, the counter never decreases; the count a run ends with
    is the last one written. *)
Theorem itr_advances_by_num_devices fuel env config :
  advances_by (num_devices config) (start_itr env config)
    (itr_writes (fst (run fuel env config))) /\
  (0 <= num_devices config ->
   nondecreasing (start_itr env config)
     (itr_writes (fst (run fuel env config)))) /\
  (forall s, snd (run fuel env config) = Ok s ->
     itr s = List.last (itr_writes (fst (run fuel env config)))
               (start_itr env config)).
Proof.
  assert (A : advances_by (num_devices config) (start_itr env config)
                (itr_writes (fst (run fuel env config))) /\
              (forall s, snd (run fuel env config) = Ok s ->
                 itr s = List.last (itr_writes (fst (run fuel env config)))
                           (start_itr env config))).
  { destruct (run_cases fuel env config)
      as [(e & _ & ->) | (c' & P & _ & ->)]; [split; [exact I | discriminate] |].
    cbn [fst snd]. rewrite itr_writes_app.
    destruct (setup_events_quiet env c' (start_itr env config))
      as (-> & _ & _ & _).
    cbn [app].
    destruct (prepared_from_keys _ _ P) as (_ & _ & _ & _ & _ & Hnd & _).
    destruct (tracks_train_loop fuel env c' (sample_batch_size c')
                (initial_state env c')) as (T1 & _ & T3).
    rewrite (initial_state_itr env config c' P), Hnd in *.
    split; [exact T1 |]. intros s Hs. now apply T3. }
  destruct A as (A1 & A2). split; [exact A1 |]. split; [| exact A2].
  intros Hd. now apply (advances_nondecreasing (num_devices config)).
Qed.

Lemma itr_advances_by_num_devices_witness :
  0 <= num_devices fresh_config /\
  nondecreasing (start_itr fresh_env fresh_config)
    (itr_writes (fst (run 3 fresh_env fresh_config))).
Proof.
  assert (H : 0 <= num_devices fresh_config) by (vm_compute; discriminate).
  split; [exact H |].
  exact (proj1 (proj2 (itr_advances_by_num_devices 3 fresh_env fresh_config))
           H).
Defined.

Lemma no_write_no_sv tr :
  Forall (fun e => is_train_log_write e = false) tr -> Forall no_sv_log tr.
Proof.
  induction 1 as [| e tr He _ IH]; constructor; [| exact IH].
  destruct e; try exact I. discriminate.
Qed.

Lemma sv_logs_none tr : Forall no_sv_log tr -> sv_logs tr = [].
Proof.
  induction 1 as [| e tr He _ IH]; [reflexivity |].
  destruct e; simpl in *; try exact IH. contradiction.
Qed.

Lemma inner_step_no_log env c g s :
  is_master_ordinal env = false ->
  Forall (fun e => is_train_log_write e = false) (fst (inner_step env c g s)).
Proof.
  intros Hm.
  destruct (inner_step_shape env c g s) as (tail & -> & (_ & _ & _ & L)).
  apply Forall_app. split; [| exact L].
  unfold step_head. rewrite Hm, andb_false_r.
  destruct (ema c); now repeat constructor.
Qed.

(** C3 as stated fails: nothing in [run] keeps num_devices from being
    negative (8 % -4 == 0 passes lines 61-62), and with num_devices = -4 the
    counter goes from 0 to -4 and then to -8: it decreases. *)
Lemma negative_devices_decrease_itr :
  start_itr fresh_env negative_devices_config = 0 /\
  itr_writes (fst (run 1 fresh_env negative_devices_config)) = [-4; -8] /\
  ~ nondecreasing (start_itr fresh_env negative_devices_config)
      (itr_writes (fst (run 1 fresh_env negative_devices_config))).
Proof.
  assert (W : itr_writes (fst (run 1 fresh_env negative_devices_config))
              = [-4; -8]) by (vm_compute; reflexivity).
  split; [reflexivity |]. split; [exact W |].
  rewrite W. intros (H & _). vm_compute in H. now apply H.
Qed.

(** C7: on a device that is not the coordinating one, no inner iteration --
    and so no run -- writes to the training log; on the coordinating device
    every inner iteration appends the record of its iteration count. *)
Theorem train_log_only_on_master env :
  (is_master_ordinal env = false ->
   (forall c g s,
      Forall (fun e => is_train_log_write e = false)
        (fst (inner_step env c g s))) /\
   (forall fuel config,
      Forall (fun e => is_train_log_write e = false)
        (fst (run fuel env config)))) /\
  (is_master_ordinal env = true ->
   forall c g s,
     In (train_log_log (itr s + num_devices c)) (fst (inner_step env c g s))).
Proof.
  split.
  - intros Hm. split; [intros c g s; now apply inner_step_no_log |].
    intros fuel config. apply run_Forall; try reflexivity.
    intros c' _. split; [| intros s; now apply inner_step_no_log].
    apply setup_events_quiet.
  - intros Hm c g s.
    destruct (inner_step_shape env c g s) as (tail & -> & _).
    unfold step_head. rewrite Hm. rewrite !in_app_iff.
    left. do 4 right. left. now left.
Qed.

Lemma train_log_only_on_master_witness :
  is_master_ordinal worker_env = false /\
  Forall (fun e => is_train_log_write e = false)
    (fst (run 3 worker_env fresh_config)) /\
  is_master_ordinal fresh_env = true /\
  In (train_log_log (0 + 4))
    (fst (inner_step fresh_env fresh_config 64
            (fresh_state_dict fresh_config))).
Proof.
  split; [reflexivity |]. split.
  - apply (proj1 (train_log_only_on_master worker_env)). reflexivity.
  - split; [reflexivity |].
    apply (proj2 (train_log_only_on_master fresh_env) eq_refl fresh_config 64
             (fresh_state_dict fresh_config)).
Defined.

(** C8: an inner iteration logs singular values if and only if
    sv_log_interval is positive, the advanced iteration count is an exact
    multiple of it and the device is the coordinating one, and then it logs
    them once, at that count; with sv_log_interval at 0 no inner iteration
    and no run logs them. *)
Theorem sv_logging_condition env c g s :
  (In (itr s + num_devices c) (sv_logs (fst (inner_step env c g s))) <->
   0 < sv_log_interval c /\
   (sv_log_interval c | itr s + num_devices c) /\
   is_master_ordinal env = true) /\
  (sv_logs (fst (inner_step env c g s)) = [] \/
   sv_logs (fst (inner_step env c g s)) = [itr s + num_devices c]) /\
  (sv_log_interval c = 0 ->
   sv_logs (fst (inner_step env c g s)) = [] /\
   forall fuel, sv_logs (fst (run fuel env c)) = []).
Proof.
  rewrite inner_step_sv_logs.
  split; [| split].
  - destruct (Z.ltb_spec 0 (sv_log_interval c)) as [Hp | Hn]; cbn [andb].
    + destruct (Z.eqb_spec ((itr s + num_devices c) mod sv_log_interval c) 0)
        as [Hz | Hz]; cbn [andb].
      * apply Z.mod_divide in Hz; [| lia].
        destruct (is_master_ordinal env); simpl; intuition congruence.
      * split; [intros [] |]. intros (_ & Hd & _).
        apply Z.mod_divide in Hd; [contradiction | lia].
    + split; [intros [] | intros (? & _); lia].
  - destruct (_ && _ && _); auto.
  - intros Hz. rewrite Hz. cbn [Z.ltb Z.compare andb]. split; [reflexivity |].
    intros fuel. apply sv_logs_none.
    destruct (run_cases fuel env c) as [(e & _ & ->) | (c' & P & _ & ->)];
      [constructor |].
    cbn [fst]. apply Forall_app.
    split; [apply no_write_no_sv, setup_events_quiet |].
    destruct (prepared_from_keys _ _ P)
      as (_ & _ & _ & _ & _ & _ & _ & _ & _ & Hsv).
    apply train_loop_Forall; try exact I.
    intros s1.
    destruct (inner_step_shape env c' (sample_batch_size c') s1)
      as (tail & -> & (_ & _ & _ & L)).
    apply Forall_app. split; [| now apply no_write_no_sv].
    unfold step_head. rewrite Hsv, Hz. cbn [Z.ltb Z.compare andb].
    destruct (is_master_ordinal env), (ema c'); now repeat constructor.
Qed.

Lemma sv_logging_condition_witness :
  (0 < sv_log_interval fresh_config /\
   (sv_log_interval fresh_config | 0 + num_devices fresh_config) /\
   is_master_ordinal fresh_env = true) /\
  In (0 + num_devices fresh_config)
    (sv_logs (fst (inner_step fresh_env fresh_config 64
                     (fresh_state_dict fresh_config)))) /\
  sv_log_interval (demo_config "celeba" false 4 8 0) = 0 /\
  forall fuel,
    sv_logs (fst (run fuel fresh_env (demo_config "celeba" false 4 8 0))) = [].
Proof.
  assert (H : 0 < sv_log_interval fresh_config /\
              (sv_log_interval fresh_config | 0 + num_devices fresh_config) /\
              is_master_ordinal fresh_env = true)
    by (split; [reflexivity | split; [exists 1; reflexivity | reflexivity]]).
  split; [exact H |]. split.
  - exact (proj2 (proj1 (sv_logging_condition fresh_env fresh_config 64
                           (fresh_state_dict fresh_config))) H).
  - split; [reflexivity |].
    apply (proj2 (proj2 (sv_logging_condition fresh_env
                           (demo_config "celeba" false 4 8 0) 64
                           (fresh_state_dict fresh_config)))).
    reflexivity.
Defined.

Lemma least_multiple_intro d n m k :
  0 < d -> m = k * d -> n <= m -> m < n + d -> least_multiple_from d n m.
Proof.
  intros Hd -> Hn Hm. split; [now exists k |]. split; [exact Hn |].
  intros m' [k' ->] Hn'. assert (k - 1 < k') by nia. nia.
Qed.

(** C1, as the code has it: for every configuration with total_steps > 0 and
    num_devices > 0 whose run starts aligned (in particular every fresh run),
    when the training loop terminates normally the iteration counter is the
    least multiple of num_devices that is at least total_steps, reached
    after (final - start) / num_devices inner iterations; the loop does
    terminate normally when the identifiers are recognized, the two
    intervals are non-zero multiples of num_devices and the loader is not
    empty; a fresh run with total_steps = 10 and num_devices = 4 ends at
    iteration 12 after exactly 3 inner iterations. *)
Theorem run_final_itr env config :
  0 < total_steps config -> 0 < num_devices config ->
  aligned_start env config ->
  (forall fuel tr s, run fuel env config = (tr, Ok s) ->
     least_multiple_from (num_devices config) (total_steps config) (itr s) /\
     Z.of_nat (inner_iterations tr) * num_devices config
       = itr s - start_itr env config) /\
  (recognized env config ->
   (num_devices config | save_every config) -> save_every config <> 0 ->
   (num_devices config | test_every config) -> test_every config <> 0 ->
   (0 < loader_len env)%nat ->
   exists fuel tr s, run fuel env config = (tr, Ok s)) /\
  (total_steps config = 10 -> num_devices config = 4 ->
   resume config = false ->
   forall fuel tr s, run fuel env config = (tr, Ok s) ->
     itr s = 12 /\ inner_iterations tr = 3%nat).
Proof.
  intros Ht Hd ([k0 Hk0] & Hstart).
  assert (A : forall fuel tr s, run fuel env config = (tr, Ok s) ->
     least_multiple_from (num_devices config) (total_steps config) (itr s) /\
     Z.of_nat (inner_iterations tr) * num_devices config
       = itr s - start_itr env config).
  { intros fuel tr s E.
    destruct (run_cases fuel env config)
      as [(e & _ & E') | (c' & P & _ & E')]; rewrite E' in E;
      [discriminate |].
    destruct (prepared_from_keys _ _ P)
      as (_ & _ & _ & _ & _ & Hnd & Htot & _).
    set (g := sample_batch_size c') in *.
    set (s0 := initial_state env c') in *.
    destruct (train_loop fuel env c' g s0) as [t r] eqn:EL.
    cbn [fst snd] in E. apply pair_equal_spec in E as [<- ->].
    destruct (train_loop_bound _ _ _ _ _ _ _ EL) as (Hge & Hb).
    destruct (tracks_train_loop fuel env c' g s0) as (_ & _ & T).
    rewrite EL in T. destruct (T s eq_refl) as (_ & Hc). cbn [fst] in Hc.
    assert (I0 : itr s0 = start_itr env config)
      by (apply initial_state_itr; exact P).
    rewrite Hnd, I0 in *. rewrite Htot in *.
    rewrite inner_iterations_app.
    destruct (setup_events_quiet env c' (start_itr env config))
      as (_ & -> & _ & _).
    cbn [Nat.add]. split; [| exact Hc].
    apply (least_multiple_intro _ _ _ (k0 + Z.of_nat (inner_iterations t)));
      [exact Hd | lia | exact Hge | lia]. }
  split; [exact A |]. split.
  - intros Hr Hs Hs0 Hte Hte0 HL.
    destruct (setup_cases env config)
      as [(Hn & _) | [(_ & Hz & _) | [(_ & _ & Hb & _)
         | (_ & _ & _ & _ & c' & P & E)]]]; try tauto; try lia.
    destruct (prepared_from_keys _ _ P)
      as (_ & _ & _ & _ & _ & Hnd & _ & Hse & Hte' & _).
    destruct (train_loop_terminates env c' (sample_batch_size c'))
      with (s := initial_state env c') as (t & s & EL);
      try congruence; try lia.
    eexists. exists (setup_events env c' (itr (initial_state env c')) ++ t), s.
    unfold run. rewrite (bind_Ok _ _ _ _ E). cbn [ready_config
      ready_sample_batch ready_state]. now rewrite EL.
  - intros H10 H4 Hres fuel tr s E.
    destruct (A fuel tr s E) as ((Hdiv & Hge & Hmin) & Hc).
    assert (S0 : start_itr env config = 0)
      by (unfold start_itr; now rewrite Hres).
    rewrite H10, H4, S0 in *.
    assert (H12 : itr s = 12).
    { destruct Hdiv as [k Hk].
      assert (itr s <= 12) by (apply Hmin; [now exists 3 | lia]). lia. }
    split; [exact H12 | lia].
Qed.

Lemma run_final_itr_witness :
  0 < total_steps fresh_config /\ 0 < num_devices fresh_config /\
  aligned_start fresh_env fresh_config /\
  exists tr s, run 3 fresh_env fresh_config = (tr, Ok s) /\
    itr s = 12 /\ inner_iterations tr = 3%nat.
Proof.
  assert (T : 0 < total_steps fresh_config) by reflexivity.
  assert (D : 0 < num_devices fresh_config) by reflexivity.
  assert (S : aligned_start fresh_env fresh_config)
    by (split; [exists 0; reflexivity | reflexivity]).
  split; [exact T |]. split; [exact D |]. split; [exact S |].
  eexists. eexists. split; [vm_compute; reflexivity |].
  apply (proj2 (proj2 (run_final_itr fresh_env fresh_config T D S))
           eq_refl eq_refl eq_refl 3%nat).
  vm_compute. reflexivity.
Defined.

(** C1 as stated fails: resumed on four devices from a checkpoint that a
    two-device run saved at iteration 6, with total_steps = 10, the loop
    terminates normally at iteration 10 after one inner iteration, and 10 is
    not a multiple of 4. *)
Lemma resumed_run_final_itr :
  0 < total_steps resumed_config /\ 0 < num_devices resumed_config /\
  exists tr s,
    run 1 resumed_env resumed_config = (tr, Ok s) /\
    itr s = 10 /\ inner_iterations tr = 1%nat /\
    ~ least_multiple_from (num_devices resumed_config)
        (total_steps resumed_config) (itr s).
Proof.
  split; [reflexivity |]. split; [reflexivity |].
  eexists. eexists. split; [vm_compute; reflexivity |].
  split; [reflexivity |]. split; [reflexivity |].
  intros ([k Hk] & _). cbn in Hk. lia.
Qed.

(** ** Further properties of [run] *)

Lemma save_itrs_app t1 t2 : save_itrs (t1 ++ t2) = save_itrs t1 ++ save_itrs t2.
Proof.
  induction t1 as [| e t1 IH]; [reflexivity |].
  destruct e; simpl; now rewrite ?IH.
Qed.

Lemma test_itrs_app t1 t2 : test_itrs (t1 ++ t2) = test_itrs t1 ++ test_itrs t2.
Proof.
  induction t1 as [| e t1 IH]; [reflexivity |].
  destruct e; simpl; now rewrite ?IH.
Qed.

Lemma step_head_no_save_test env c i :
  save_itrs (step_head env c i) = [] /\ test_itrs (step_head env c i) = [].
Proof.
  unfold step_head.
  destruct (is_master_ordinal env), (ema c),
    ((0 <? sv_log_interval c) && (i mod sv_log_interval c =? 0));
    split; reflexivity.
Qed.

Lemma save_events_itrs c i g :
  save_itrs (save_events c i g) = [i] /\ test_itrs (save_events c i g) = [].
Proof.
  unfold save_events. destruct (G_eval_mode c), (ema c); split; reflexivity.
Qed.

Lemma test_events_itrs c i g :
  save_itrs (test_events c i g) = [] /\ test_itrs (test_events c i g) = [i].
Proof.
  unfold test_events. destruct (G_eval_mode c); split; reflexivity.
Qed.

(** What an inner iteration saves and tests, by the outcome of the two
    interval tests. *)
Lemma inner_step_save_test env c g s :
  let i := itr s + num_devices c in
  (save_every c <> 0 ->
   save_itrs (fst (inner_step env c g s)) =
     if i mod save_every c =? 0 then [i] else []) /\
  (save_every c <> 0 -> test_every c <> 0 ->
   test_itrs (fst (inner_step env c g s)) =
     if i mod test_every c =? 0 then [i] else []) /\
  (save_every c = 0 ->
   save_itrs (fst (inner_step env c g s)) = [] /\
   test_itrs (fst (inner_step env c g s)) = []) /\
  (test_every c = 0 -> test_itrs (fst (inner_step env c g s)) = []).
Proof.
  cbv zeta. rewrite inner_step_spec. cbv zeta.
  set (i := itr s + num_devices c).
  destruct (step_head_no_save_test env c i) as (HS & HT).
  destruct (save_events_itrs c i g) as (SS & ST).
  destruct (test_events_itrs c i g) as (TS & TT).
  destruct (Z.eqb_spec (save_every c) 0) as [S0 | SN].
  { cbn [fst]. rewrite HS, HT. repeat split; auto; intros; contradiction. }
  destruct (Z.eqb_spec (test_every c) 0) as [T0 | TN]; cbn [fst];
    rewrite ?save_itrs_app, ?test_itrs_app, HS, HT; cbn [app].
  - repeat split; try (intros; contradiction).
    + intros _. destruct (i mod save_every c =? 0);
        [now rewrite SS | reflexivity].
    + intros _. destruct (i mod save_every c =? 0);
        [now rewrite ST | reflexivity].
  - repeat split; try (intros; contradiction).
    + intros _. destruct (i mod save_every c =? 0), (i mod test_every c =? 0);
        rewrite ?SS, ?TS; reflexivity.
    + intros _ _.
      destruct (i mod save_every c =? 0), (i mod test_every c =? 0);
        rewrite ?ST, ?TT; reflexivity.
Qed.

(** A property of single events holds of an inner iteration when it holds of
    its head and of the save and test events it performs when due. *)
Lemma inner_step_Forall_parts (P : event -> Prop) env c g s :
  let i := itr s + num_devices c in
  Forall P (step_head env c i) ->
  (save_every c <> 0 -> i mod save_every c = 0 ->
   Forall P (save_events c i g)) ->
  (save_every c <> 0 -> test_every c <> 0 -> i mod test_every c = 0 ->
   Forall P (test_events c i g)) ->
  Forall P (fst (inner_step env c g s)).
Proof.
  cbv zeta. intros HH HS HT. rewrite inner_step_spec. cbv zeta.
  destruct (Z.eqb_spec (save_every c) 0) as [S0 | SN]; [exact HH |].
  destruct (Z.eqb_spec (test_every c) 0) as [T0 | TN]; cbn [fst].
  - apply Forall_app. split; [exact HH |].
    destruct (Z.eqb_spec ((itr s + num_devices c) mod save_every c) 0);
      [now apply HS | constructor].
  - apply Forall_app. split; [exact HH |]. apply Forall_app. split.
    + destruct (Z.eqb_spec ((itr s + num_devices c) mod save_every c) 0);
        [now apply HS | constructor].
    + destruct (Z.eqb_spec ((itr s + num_devices c) mod test_every c) 0);
        [now apply HT | constructor].
Qed.

(** X1: an inner iteration that reaches the save test (save_every not zero)
    invokes the checkpoint manager if and only if the advanced iteration
    count is an exact multiple of save_every, once and at that count; over a
    whole run the checkpoint manager is only ever invoked at multiples of
    save_every. *)
Theorem checkpoint_at_multiples_of_save_every :
  (forall env c g s, save_every c <> 0 ->
     (In (itr s + num_devices c) (save_itrs (fst (inner_step env c g s))) <->
      (save_every c | itr s + num_devices c)) /\
     (save_itrs (fst (inner_step env c g s)) = [] \/
      save_itrs (fst (inner_step env c g s)) = [itr s + num_devices c])) /\
  (forall fuel env config,
     Forall (saves_at_multiples (save_every config))
       (fst (run fuel env config))).
Proof.
  split.
  - intros env c g s SN.
    destruct (inner_step_save_test env c g s) as (H & _). cbv zeta in H.
    rewrite (H SN).
    destruct (Z.eqb_spec ((itr s + num_devices c) mod save_every c) 0)
      as [E | E].
    + apply Z.mod_divide in E; [| exact SN]. split; [| now right].
      split; [intros _; exact E | intros _; now left].
    + split; [| now left]. split; [intros [] |].
      intros D. apply Z.mod_divide in D; [contradiction | exact SN].
  - intros fuel env config. apply run_Forall; try exact I.
    intros c' P.
    destruct (prepared_from_keys _ _ P)
      as (_ & _ & _ & _ & _ & _ & _ & Hse & _).
    split.
    + unfold setup_events. list_forall; exact I.
    + intros s. apply inner_step_Forall_parts.
      * unfold step_head. list_forall; exact I.
      * intros SN E. rewrite Hse in *. apply Z.mod_divide in E; [| exact SN].
        unfold save_events. list_forall; try exact I. exact E.
      * intros _ _ _. unfold test_events. list_forall; exact I.
Qed.

Lemma checkpoint_at_multiples_of_save_every_witness :
  save_every fresh_config <> 0 /\
  (In (4 + num_devices fresh_config)
     (save_itrs (fst (inner_step fresh_env fresh_config 64
                        (set_itr 4 (fresh_state_dict fresh_config))))) <->
   (save_every fresh_config | 4 + num_devices fresh_config)).
Proof.
  assert (H : save_every fresh_config <> 0) by (vm_compute; discriminate).
  split; [exact H |].
  exact (proj1 (proj1 checkpoint_at_multiples_of_save_every fresh_env
                  fresh_config 64 (set_itr 4 (fresh_state_dict fresh_config))
                  H)).
Defined.

(** X2: an inner iteration that reaches the test of line 218 (save_every and
    test_every not zero) invokes the evaluation engine if and only if the
    advanced iteration count is an exact multiple of test_every, once and at
    that count; over a whole run the evaluation engine is only ever invoked
    at multiples of test_every. *)
Theorem evaluation_at_multiples_of_test_every :
  (forall env c g s, save_every c <> 0 -> test_every c <> 0 ->
     (In (itr s + num_devices c) (test_itrs (fst (inner_step env c g s))) <->
      (test_every c | itr s + num_devices c)) /\
     (test_itrs (fst (inner_step env c g s)) = [] \/
      test_itrs (fst (inner_step env c g s)) = [itr s + num_devices c])) /\
  (forall fuel env config,
     Forall (tests_at_multiples (test_every config))
       (fst (run fuel env config))).
Proof.
  split.
  - intros env c g s SN TN.
    destruct (inner_step_save_test env c g s) as (_ & H & _). cbv zeta in H.
    rewrite (H SN TN).
    destruct (Z.eqb_spec ((itr s + num_devices c) mod test_every c) 0)
      as [E | E].
    + apply Z.mod_divide in E; [| exact TN]. split; [| now right].
      split; [intros _; exact E | intros _; now left].
    + split; [| now left]. split; [intros [] |].
      intros D. apply Z.mod_divide in D; [contradiction | exact TN].
  - intros fuel env config. apply run_Forall; try exact I.
    intros c' P.
    destruct (prepared_from_keys _ _ P)
      as (_ & _ & _ & _ & _ & _ & _ & _ & Hte & _).
    split.
    + unfold setup_events. list_forall; exact I.
    + intros s. apply inner_step_Forall_parts.
      * unfold step_head. list_forall; exact I.
      * intros _ _. unfold save_events. list_forall; exact I.
      * intros _ TN E. rewrite Hte in *. apply Z.mod_divide in E; [| exact TN].
        unfold test_events. list_forall; try exact I. exact E.
Qed.

Lemma evaluation_at_multiples_of_test_every_witness :
  save_every fresh_config <> 0 /\ test_every fresh_config <> 0 /\
  (In (4 + num_devices fresh_config)
     (test_itrs (fst (inner_step fresh_env fresh_config 64
                        (set_itr 4 (fresh_state_dict fresh_config))))) <->
   (test_every fresh_config | 4 + num_devices fresh_config)).
Proof.
  assert (H : save_every fresh_config <> 0) by (vm_compute; discriminate).
  assert (T : test_every fresh_config <> 0) by (vm_compute; discriminate).
  split; [exact H |]. split; [exact T |].
  exact (proj1 (proj1 evaluation_at_multiples_of_test_every fresh_env
                  fresh_config 64 (set_itr 4 (fresh_state_dict fresh_config))
                  H T)).
Defined.

Lemma passes_app t1 t2 : passes (t1 ++ t2) = (passes t1 + passes t2)%nat.
Proof.
  induction t1 as [| e t1 IH]; [reflexivity |].
  destruct e; simpl; now rewrite ?IH.
Qed.

Lemma setup_events_passes env c start : passes (setup_events env c start) = O.
Proof.
  unfold setup_events.
  destruct (ema c), (G_fp16 c), (D_fp16 c), (resume c),
    (is_master_ordinal env); reflexivity.
Qed.

(** A run whose set-up succeeds is its set-up events followed by the
    training loop. *)
Lemma run_prepared fuel env config :
  recognized env config -> num_devices config <> 0 ->
  (num_devices config | save_every config) ->
  (num_devices config | test_every config) ->
  exists c',
    prepared_from config c' /\
    itr (initial_state env c') = start_itr env config /\
    run fuel env config =
      (setup_events env c' (start_itr env config)
         ++ fst (train_loop fuel env c' (sample_batch_size c')
                   (initial_state env c')),
       snd (train_loop fuel env c' (sample_batch_size c')
              (initial_state env c'))).
Proof.
  intros Hr Hnz Hs Ht.
  destruct (run_cases fuel env config) as [(e & E & _) | (c' & P & _ & E)].
  - destruct (setup_cases env config)
      as [(Hn & _) | [(_ & Hz & _) | [(_ & _ & Hb & _)
         | (_ & _ & _ & _ & c' & _ & E')]]]; try tauto.
    rewrite E' in E. discriminate.
  - exists c'. split; [exact P |]. split; [| exact E].
    now apply initial_state_itr.
Qed.

Lemma bind_Raise_inv {A B} (m : M A) (k : A -> M B) e :
  snd (bind m k) = Raise e ->
  snd m = Raise e \/ exists a, snd m = Ok a /\ snd (k a) = Raise e.
Proof.
  rewrite bind_result. destruct (snd m) as [a | e' |]; intros H.
  - right. now exists a.
  - left. now inversion H.
  - discriminate.
Qed.

(** The only exception the training loop raises by itself is the division by
    a zero interval. *)
Lemma train_loop_Raise_inv fuel env c g s e :
  snd (train_loop fuel env c g s) = Raise e ->
  e = ZeroDivisionError /\ (save_every c = 0 \/ test_every c = 0).
Proof.
  revert s. induction fuel as [| fuel IH]; intros s; rewrite train_loop_eq;
    destruct (itr s <? total_steps c); try discriminate.
  intros H.
  apply bind_Raise_inv in H as [H | (_ & _ & H)]; [discriminate |].
  apply bind_Raise_inv in H as [H | (s1 & _ & H)].
  - clear IH. revert s H. generalize (loader_len env). intros n.
    induction n as [| n IHn]; intros s H; [discriminate |].
    rewrite for_loader_S in H.
    apply bind_Raise_inv in H as [H | (s1 & _ & H)].
    + destruct (inner_step_outcome env c g s)
        as [(_ & _ & s' & E) | (Z0 & E)]; rewrite E in H;
        [discriminate | inversion H; auto].
    + destruct (total_steps c <=? itr s1); [discriminate | eauto].
  - apply bind_Raise_inv in H as [H | (_ & _ & H)]; [discriminate |].
    eauto.
Qed.

(** X3: a configuration with recognized identifiers, a non-zero device
    count and save and test intervals that are non-zero multiples of it
    never makes [run] raise: whatever sv_log_interval is (zero included,
    thanks to the short-circuit of line 201), no KeyError, AssertionError or
    ZeroDivisionError comes out of the orchestrator. *)
Theorem run_raises_nothing fuel env config e :
  recognized env config -> num_devices config <> 0 ->
  (num_devices config | save_every config) -> save_every config <> 0 ->
  (num_devices config | test_every config) -> test_every config <> 0 ->
  snd (run fuel env config) <> Raise e.
Proof.
  intros Hr Hnz Hs Hs0 Ht Ht0 H.
  destruct (run_prepared fuel env config Hr Hnz Hs Ht) as (c' & P & _ & E).
  rewrite E in H. cbn [snd] in H.
  apply train_loop_Raise_inv in H as (_ & Z0).
  destruct (prepared_from_keys _ _ P)
    as (_ & _ & _ & _ & _ & _ & _ & Hse & Hte & _).
  rewrite Hse, Hte in Z0. tauto.
Qed.

Lemma run_raises_nothing_witness :
  recognized fresh_env (demo_config "celeba" false 4 8 0) /\
  snd (run 3 fresh_env (demo_config "celeba" false 4 8 0))
    <> Raise ZeroDivisionError.
Proof.
  assert (R : recognized fresh_env (demo_config "celeba" false 4 8 0))
    by (repeat split; vm_compute; eauto).
  split; [exact R |].
  apply (run_raises_nothing 3 fresh_env (demo_config "celeba" false 4 8 0)
           ZeroDivisionError R).
  - vm_compute. discriminate.
  - exists 2. reflexivity.
  - vm_compute. discriminate.
  - exists 2. reflexivity.
  - vm_compute. discriminate.
Defined.



(** X5: with num_devices at zero and recognized identifiers, [run] fails on
    the remainder of line 61 with ZeroDivisionError -- not with the
    assertion error -- before doing anything else. *)
Theorem zero_devices_divides_by_zero fuel env config :
  recognized env config -> num_devices config = 0 ->
  run fuel env config = ([], Raise ZeroDivisionError).
Proof.
  intros Hr Hz. unfold run.
  destruct (setup_cases env config)
    as [(Hn & _) | [(_ & _ & E) | [(_ & Hnz & _) | (_ & Hnz & _)]]];
    try contradiction.
  now rewrite E.
Qed.

Lemma zero_devices_divides_by_zero_witness :
  recognized fresh_env (demo_config "celeba" false 0 8 4) /\
  run 3 fresh_env (demo_config "celeba" false 0 8 4)
    = ([], Raise ZeroDivisionError).
Proof.
  assert (R : recognized fresh_env (demo_config "celeba" false 0 8 4))
    by (repeat split; vm_compute; eauto).
  split; [exact R |].
  apply (zero_devices_divides_by_zero 3 fresh_env
           (demo_config "celeba" false 0 8 4) R).
  reflexivity.
Defined.

Lemma bind_ret {A B} (a : A) (k : A -> M B) : bind (ret a) k = k a.
Proof. simpl. now destruct (k a). Qed.

Lemma train_loop_empty_loader fuel env c g s :
  loader_len env = O -> itr s < total_steps c ->
  snd (train_loop fuel env c g s) = OutOfFuel /\
  inner_iterations (fst (train_loop fuel env c g s)) = O /\
  itr_writes (fst (train_loop fuel env c g s)) = [] /\
  passes (fst (train_loop fuel env c g s)) = fuel.
Proof.
  intros HL Hlt. induction fuel as [| fuel IH]; rewrite train_loop_eq;
    destruct (Z.ltb_spec (itr s) (total_steps c)) as [_ | Hge]; try lia.
  - now repeat split.
  - rewrite HL. cbn [for_loader]. rewrite bind_emit, bind_ret, bind_emit.
    cbn [fst snd inner_iterations itr_writes passes].
    destruct IH as (-> & -> & -> & ->). now repeat split.
Qed.

(** X6: when the set-up succeeds (recognized identifiers, a non-zero device
    count, save and test intervals that are multiples of it), the loader
    yields no batch and the starting iteration count is below total_steps,
    [run] never terminates: it goes round the [while] loop for ever, one
    empty pass after the other, without ever advancing the counter or
    calling the step function. *)
Theorem empty_loader_never_terminates fuel env config :
  recognized env config -> num_devices config <> 0 ->
  (num_devices config | save_every config) ->
  (num_devices config | test_every config) ->
  loader_len env = O ->
  start_itr env config < total_steps config ->
  snd (run fuel env config) = OutOfFuel /\
  passes (fst (run fuel env config)) = fuel /\
  inner_iterations (fst (run fuel env config)) = O /\
  itr_writes (fst (run fuel env config)) = [].
Proof.
  intros Hr Hnz Hs Ht HL Hlt.
  destruct (run_prepared fuel env config Hr Hnz Hs Ht)
    as (c' & P & I0 & ->).
  destruct (prepared_from_keys _ _ P)
    as (_ & _ & _ & _ & _ & _ & Htot & _).
  cbn [fst snd].
  destruct (train_loop_empty_loader fuel env c' (sample_batch_size c')
              (initial_state env c') HL) as (E1 & E2 & E3 & E4);
    [rewrite I0, Htot; exact Hlt |].
  rewrite passes_app, inner_iterations_app, itr_writes_app, E1, E2, E3, E4.
  rewrite setup_events_passes.
  destruct (setup_events_quiet env c' (start_itr env config))
    as (-> & -> & _ & _).
  now repeat split.
Qed.

Lemma empty_loader_never_terminates_witness :
  recognized (demo_tables_env true 0 0 fresh_config) fresh_config /\
  snd (run 7 (demo_tables_env true 0 0 fresh_config) fresh_config)
    = OutOfFuel /\
  passes (fst (run 7 (demo_tables_env true 0 0 fresh_config) fresh_config))
    = 7%nat /\
  inner_iterations
    (fst (run 7 (demo_tables_env true 0 0 fresh_config) fresh_config)) = O /\
  itr_writes
    (fst (run 7 (demo_tables_env true 0 0 fresh_config) fresh_config)) = [].
Proof.
  assert (R : recognized (demo_tables_env true 0 0 fresh_config) fresh_config)
    by (repeat split; vm_compute; eauto).
  split; [exact R |].
  apply (empty_loader_never_terminates 7
           (demo_tables_env true 0 0 fresh_config) fresh_config R).
  - vm_compute. discriminate.
  - exists 2. reflexivity.
  - exists 2. reflexivity.
  - reflexivity.
  - reflexivity.
Defined.

(** X7: when the set-up succeeds (recognized identifiers, a non-zero device
    count, save and test intervals that are multiples of it) and the
    starting iteration count has already reached total_steps (a checkpoint
    at or beyond the budget, or a budget that is not positive), [run]
    returns right after the set-up: no pass over the loader, no counter
    write, no step call, and the State Dictionary it ends with is the
    checkpoint's when resuming and otherwise the fresh one of line 111,
    holding the configuration the set-up prepared. *)
Theorem budget_reached_trains_nothing fuel env c :
  recognized env c -> num_devices c <> 0 ->
  (num_devices c | save_every c) ->
  (num_devices c | test_every c) ->
  total_steps c <= start_itr env c ->
  exists tr s,
    run fuel env c = (tr, Ok s) /\
    passes tr = O /\ inner_iterations tr = O /\ itr_writes tr = [] /\
    itr s = start_itr env c /\
    (resume c = true -> s = checkpoint env) /\
    (resume c = false ->
     prepared_from c (config s) /\ s = fresh_state_dict (config s)).
Proof.
  intros Hr Hnz Hs Ht Hge.
  destruct (run_prepared fuel env c Hr Hnz Hs Ht) as (c' & P & I0 & ->).
  destruct (prepared_from_keys _ _ P)
    as (Hres & _ & _ & _ & _ & _ & Htot & _).
  rewrite train_loop_eq.
  destruct (Z.ltb_spec (itr (initial_state env c')) (total_steps c'))
    as [Hlt | _]; [lia |].
  cbn [fst snd ret]. rewrite app_nil_r.
  eexists. eexists. split; [reflexivity |].
  rewrite setup_events_passes.
  destruct (setup_events_quiet env c' (start_itr env c))
    as (-> & -> & _ & _).
  repeat split; auto.
  - intros R. unfold initial_state. now rewrite Hres, R.
  - unfold initial_state. rewrite Hres, H. exact P.
  - unfold initial_state. rewrite Hres, H. reflexivity.
Qed.

Lemma budget_reached_trains_nothing_witness :
  recognized (demo_tables_env true 2 16 fresh_config)
    (demo_config "celeba" true 2 2 4) /\
  exists tr s,
    run 0 (demo_tables_env true 2 16 fresh_config)
      (demo_config "celeba" true 2 2 4) = (tr, Ok s) /\
    passes tr = O /\ inner_iterations tr = O /\ itr_writes tr = [] /\
    itr s = start_itr (demo_tables_env true 2 16 fresh_config)
              (demo_config "celeba" true 2 2 4) /\
    (resume (demo_config "celeba" true 2 2 4) = true ->
     s = checkpoint (demo_tables_env true 2 16 fresh_config)) /\
    (resume (demo_config "celeba" true 2 2 4) = false ->
     prepared_from (demo_config "celeba" true 2 2 4) (config s) /\
     s = fresh_state_dict (config s)).
Proof.
  assert (R : recognized (demo_tables_env true 2 16 fresh_config)
                (demo_config "celeba" true 2 2 4))
    by (repeat split; vm_compute; eauto).
  split; [exact R |].
  apply (budget_reached_trains_nothing 0
           (demo_tables_env true 2 16 fresh_config)
           (demo_config "celeba" true 2 2 4) R).
  - vm_compute. discriminate.
  - exists 1. reflexivity.
  - exists 4. reflexivity.
  - vm_compute. discriminate.
Defined.

Lemma collective_events_app t1 t2 :
  collective_events (t1 ++ t2)
  = collective_events t1 ++ collective_events t2.
Proof.
  induction t1 as [| e t1 IH]; [reflexivity |].
  simpl. destruct (master_only e); simpl; now rewrite IH.
Qed.

Lemma same_collective_refl {A} (m : M A) : same_collective m m.
Proof. now split. Qed.

Lemma same_collective_bind {A B} (m1 m2 : M A) (k1 k2 : A -> M B) :
  same_collective m1 m2 ->
  (forall a, same_collective (k1 a) (k2 a)) ->
  same_collective (bind m1 k1) (bind m2 k2).
Proof.
  intros (R1 & T1) Hk. unfold same_collective.
  rewrite !bind_trace, !bind_result, !collective_events_app, <- R1, T1.
  destruct (snd m1) as [a | e |]; [| now split | now split].
  destruct (Hk a) as (R2 & T2). now rewrite R2, T2.
Qed.

Lemma same_collective_when_master {B} b1 b2 e (k1 k2 : unit -> M B) :
  master_only e = true ->
  same_collective (k1 tt) (k2 tt) ->
  same_collective (bind (when b1 (emit e)) k1) (bind (when b2 (emit e)) k2).
Proof.
  intros He (R & T). unfold same_collective.
  rewrite !bind_trace, !bind_result, !collective_events_app.
  destruct b1, b2; cbn [when emit ret fst snd collective_events];
    rewrite ?He; cbn [app]; now rewrite R, T.
Qed.

Lemma inner_step_same_collective b env c g s :
  same_collective (inner_step (on_device b env) c g s) (inner_step env c g s).
Proof.
  unfold inner_step.
  apply same_collective_when_master; [reflexivity |].
  repeat (apply same_collective_bind; [apply same_collective_refl | intros ?]).
  apply same_collective_when_master; [reflexivity |].
  apply same_collective_bind; [apply same_collective_refl | intros sv].
  cbn [is_master_ordinal on_device].
  apply (same_collective_when_master (sv && b) (sv && is_master_ordinal env));
    [reflexivity |].
  apply same_collective_when_master; [reflexivity |].
  apply same_collective_refl.
Qed.

Lemma for_loader_same_collective b n env c g s :
  same_collective (for_loader n (on_device b env) c g s)
    (for_loader n env c g s).
Proof.
  revert s. induction n as [| n IH]; intros s; [apply same_collective_refl |].
  rewrite !for_loader_S.
  apply same_collective_bind; [apply inner_step_same_collective |].
  intros s1. destruct (total_steps c <=? itr s1);
    [apply same_collective_refl | apply IH].
Qed.

Lemma train_loop_same_collective b fuel env c g s :
  same_collective (train_loop fuel (on_device b env) c g s)
    (train_loop fuel env c g s).
Proof.
  revert s. induction fuel as [| fuel IH]; intros s; rewrite !train_loop_eq;
    destruct (itr s <? total_steps c); try apply same_collective_refl.
  apply same_collective_bind; [apply same_collective_refl | intros _].
  apply same_collective_bind; [apply for_loader_same_collective |].
  intros s1.
  apply same_collective_bind; [apply same_collective_refl | intros _].
  apply IH.
Qed.

Lemma setup_same_collective b env config :
  same_collective (setup (on_device b env) config) (setup env config).
Proof.
  unfold setup.
  apply same_collective_bind; [apply same_collective_refl | intros c1].
  repeat (apply same_collective_bind; [apply same_collective_refl | intros ?]).
  apply same_collective_when_master; [reflexivity |].
  apply same_collective_refl.
Qed.

(** X8: the devices of a run stay in lockstep.  Whether a device is the
    master ordinal changes only the master-only calls (metadata, progress
    bar, training log): a run ends the same way, with the same State
    Dictionary, and makes the same collective calls in the same order --
    loader passes, counter writes, step calls, checkpoints, evaluations --
    on the master and on any other device. *)
Theorem devices_run_in_lockstep fuel env config master :
  snd (run fuel (on_device master env) config) = snd (run fuel env config) /\
  collective_events (fst (run fuel (on_device master env) config))
  = collective_events (fst (run fuel env config)).
Proof.
  unfold run. apply same_collective_bind; [apply setup_same_collective |].
  intros ready. apply train_loop_same_collective.
Qed.

(** The flags of the caller's configuration that the set-up phase leaves
    alone. *)
Lemma prepared_from_flags c c' :
  prepared_from c c' ->
  ema c' = ema c /\ G_fp16 c' = G_fp16 c /\ D_fp16 c' = D_fp16 c /\
  G_eval_mode c' = G_eval_mode c /\ seed c' = seed c /\ model c' = model c /\
  dataset c' = dataset c /\ G_nl c' = G_nl c /\ D_nl c' = D_nl c.
Proof.
  intros (c1 & (r & n & g & d & ->) & ->). unfold with_skip_init.
  cbn [resume set_D_activation set_G_activation set_n_classes
       set_resolution].
  destruct (resume c); repeat split; reflexivity.
Qed.

(** The events of an inner iteration: its head, then the save events and
    the test events when performed. *)
Lemma inner_step_trace env c g s :
  exists saved tested : bool,
    fst (inner_step env c g s) =
      step_head env c (itr s + num_devices c)
      ++ (if saved then save_events c (itr s + num_devices c) g else [])
      ++ (if tested then test_events c (itr s + num_devices c) g else []).
Proof.
  rewrite inner_step_spec. cbv zeta.
  destruct (save_every c =? 0).
  { exists false, false. cbn [fst]. now rewrite app_nil_r. }
  destruct (test_every c =? 0).
  { eexists. exists false. cbn [fst]. now rewrite app_nil_r. }
  eexists. eexists. reflexivity.
Qed.

(** A property of traces that holds of the empty trace and is kept by
    concatenation holds of a run when it holds of the set-up events, of each
    inner iteration and of the two calls that bracket a pass. *)
Lemma run_trace_closed (Q : list event -> Prop) fuel env c :
  Q [] -> (forall t1 t2, Q t1 -> Q t2 -> Q (t1 ++ t2)) ->
  (forall c', prepared_from c c' ->
     Q (setup_events env c' (start_itr env c)) /\
     forall s, Q (fst (inner_step env c' (sample_batch_size c') s))) ->
  Q [per_device_loader] -> Q [pbar_close] ->
  Q (fst (run fuel env c)).
Proof.
  intros Qnil Qapp H Ql Qc.
  assert (Qbind : forall A B (m : M A) (k : A -> M B),
            Q (fst m) -> (forall a, Q (fst (k a))) -> Q (fst (bind m k))).
  { intros A B m k Hm Hk. rewrite bind_trace. apply Qapp; [exact Hm |].
    destruct (snd m); auto. }
  destruct (run_cases fuel env c) as [(e & _ & ->) | (c' & P & _ & ->)];
    [exact Qnil |].
  destruct (H c' P) as (Hs & Hi). cbn [fst]. apply Qapp; [exact Hs |].
  set (g := sample_batch_size c') in *.
  assert (Qfor : forall n s, Q (fst (for_loader n env c' g s))).
  { induction n as [| n IH]; intros s; [exact Qnil |].
    rewrite for_loader_S. apply Qbind; [apply Hi |].
    intros s1. destruct (total_steps c' <=? itr s1); [exact Qnil | apply IH]. }
  generalize (initial_state env c'). induction fuel as [| fuel IH]; intros s;
    rewrite train_loop_eq; destruct (itr s <? total_steps c');
    try exact Qnil.
  apply Qbind; [exact Ql | intros _].
  apply Qbind; [apply Qfor | intros s1].
  apply Qbind; [exact Qc | intros _; apply IH].
Qed.

Lemma step_modes_app e m t1 t2 :
  step_modes e m (t1 ++ t2) =
  match step_modes e m t1 with
  | Some m1 => step_modes e m1 t2
  | None => None
  end.
Proof.
  revert m. induction t1 as [| ev t1 IH]; intros m; [reflexivity |].
  destruct ev; simpl; try apply IH.
  destruct (G_training m && D_training m && (negb e || G_ema_training m));
    [apply IH | reflexivity].
Qed.

Lemma step_modes_no_step e tr :
  inner_iterations tr = O -> forall m, exists m', step_modes e m tr = Some m'.
Proof.
  induction tr as [| ev tr IH]; intros H m; [now exists m |].
  destruct ev; simpl in *; try (now apply IH). discriminate.
Qed.

Lemma step_modes_head env c i m :
  exists m', step_modes (ema c) m (step_head env c i) = Some m'.
Proof.
  unfold step_head.
  destruct (is_master_ordinal env), (ema c),
    ((0 <? sv_log_interval c) && (i mod sv_log_interval c =? 0));
    cbn; eauto.
Qed.

(** X9: every call of the step function runs with G and D, and the EMA copy
    when EMA is on, in training mode -- whatever the modes were when [run]
    started and whatever the checkpoint manager and the evaluation engine
    did to them: lines 185-188 put the networks back in training mode at the
    top of every inner iteration. *)
Theorem step_runs_in_training_mode fuel env config m :
  exists m',
    step_modes (ema config) m (fst (run fuel env config)) = Some m'.
Proof.
  revert m.
  apply (run_trace_closed
           (fun tr => forall m, exists m',
                        step_modes (ema config) m tr = Some m')).
  - intros m. now exists m.
  - intros t1 t2 H1 H2 m. rewrite step_modes_app.
    destruct (H1 m) as (m1 & ->). apply H2.
  - intros c' P. destruct (prepared_from_flags _ _ P) as (He & _). split.
    + apply step_modes_no_step.
      now destruct (setup_events_quiet env c' (start_itr env config))
        as (_ & ? & _).
    + intros s m.
      destruct (inner_step_shape env c' (sample_batch_size c') s)
        as (tail & -> & (_ & C & _ & _)).
      rewrite step_modes_app, <- He.
      destruct (step_modes_head env c' (itr s + num_devices c') m)
        as (m1 & ->).
      now apply step_modes_no_step.
  - intros m. now exists m.
  - intros m. now exists m.
Qed.

(** X10: with EMA off, [run] never touches the EMA copy of the generator
    (which is then [None], line 92): it is neither built, nor cast, nor put
    in training or evaluation mode. *)
Theorem no_ema_never_uses_G_ema fuel env config :
  ema config = false ->
  Forall (fun e => uses_G_ema e = false) (fst (run fuel env config)).
Proof.
  intros He. apply run_Forall; try reflexivity.
  intros c' P. destruct (prepared_from_flags _ _ P) as (He' & _).
  rewrite He in He'. split.
  - unfold setup_events. rewrite He'. list_forall; reflexivity.
  - intros s. apply inner_step_Forall_parts.
    + unfold step_head. rewrite He'. list_forall; reflexivity.
    + intros _ _. unfold save_events. rewrite He'. list_forall; reflexivity.
    + intros _ _ _. unfold test_events. list_forall; reflexivity.
Qed.

Lemma no_ema_never_uses_G_ema_witness :
  ema (mkConfig "celeba" "relu" "relu" "BigGAN" false false 0 false true
         true 64 1 8 32 4 10 8 8 4 true None None None None) = false /\
  Forall (fun e => uses_G_ema e = false)
    (fst (run 3 fresh_env
            (mkConfig "celeba" "relu" "relu" "BigGAN" false false 0 false
               true true 64 1 8 32 4 10 8 8 4 true None None None None))).
Proof.
  split; [reflexivity |].
  now apply no_ema_never_uses_G_ema.
Defined.

(** X11: the two loggers are re-initialized exactly when the run is not a
    resumption (lines 129-134): a resumed run never wipes the logs of the
    run it continues, a fresh run always starts from empty logs. *)
Theorem logs_reinitialized_unless_resuming fuel env config :
  Forall (log_reinitialize (negb (resume config))) (fst (run fuel env config))
  /\
  (forall tr ready, setup env config = (tr, Ok ready) ->
     In (new_test_log (negb (resume config))) tr /\
     In (new_train_log (negb (resume config))) tr).
Proof.
  split.
  - apply run_Forall; try exact I.
    intros c' P. destruct (prepared_from_keys _ _ P) as (Hr & _). split.
    + unfold setup_events. rewrite Hr. list_forall; simpl; auto.
    + intros s. apply inner_step_Forall_parts.
      * unfold step_head. list_forall; exact I.
      * intros _ _. unfold save_events. list_forall; exact I.
      * intros _ _ _. unfold test_events. list_forall; exact I.
  - intros tr ready E.
    destruct (run_cases 0 env config) as [(e & E' & _) | (c' & P & E' & _)];
      rewrite E' in E; [discriminate |].
    apply pair_equal_spec in E as [<- _].
    destruct (prepared_from_keys _ _ P) as (Hr & _).
    unfold setup_events. rewrite Hr, !in_app_iff. split.
    + do 6 right. left. now left.
    + do 6 right. left. right. now left.
Qed.

Lemma logs_reinitialized_unless_resuming_witness :
  exists tr ready,
    setup resumed_env resumed_config = (tr, Ok ready) /\
    In (new_test_log false) tr /\ In (new_train_log false) tr.
Proof.
  eexists. eexists. split; [vm_compute; reflexivity |].
  eapply (proj2 (logs_reinitialized_unless_resuming 0 resumed_env
                   resumed_config)).
  vm_compute. reflexivity.
Defined.

Lemma pbar_total_app t1 t2 :
  pbar_total (t1 ++ t2) = pbar_total t1 + pbar_total t2.
Proof.
  induction t1 as [| e t1 IH]; [reflexivity |].
  destruct e; simpl; rewrite ?IH; lia.
Qed.

Lemma pbar_closes_app t1 t2 :
  pbar_closes (t1 ++ t2) = (pbar_closes t1 + pbar_closes t2)%nat.
Proof.
  induction t1 as [| e t1 IH]; [reflexivity |].
  destruct e; simpl; now rewrite ?IH.
Qed.

(** An inner iteration neither opens a pass nor closes the progress bar. *)
Lemma inner_step_inside_pass env c g s :
  pbar_closes (fst (inner_step env c g s)) = O /\
  passes (fst (inner_step env c g s)) = O.
Proof.
  destruct (inner_step_trace env c g s) as (sv & tv & ->).
  unfold step_head, save_events, test_events.
  destruct (is_master_ordinal env), (ema c), (G_eval_mode c), sv, tv,
    ((0 <? sv_log_interval c)
     && ((itr s + num_devices c) mod sv_log_interval c =? 0));
    split; reflexivity.
Qed.

Lemma for_loader_inside_pass n env c g s :
  pbar_closes (fst (for_loader n env c g s)) = O /\
  passes (fst (for_loader n env c g s)) = O.
Proof.
  revert s. induction n as [| n IH]; intros s; [now split |].
  rewrite for_loader_S, bind_trace, pbar_closes_app, passes_app.
  destruct (inner_step_inside_pass env c g s) as (-> & ->).
  destruct (snd (inner_step env c g s)) as [s1 | e |]; [| now split ..].
  destruct (total_steps c <=? itr s1); [now split | apply IH].
Qed.

(** On normal termination the progress bar was closed once per pass. *)
Lemma train_loop_closes_each_pass fuel env c g s s' :
  snd (train_loop fuel env c g s) = Ok s' ->
  pbar_closes (fst (train_loop fuel env c g s))
  = passes (fst (train_loop fuel env c g s)).
Proof.
  revert s. induction fuel as [| fuel IH]; intros s; rewrite train_loop_eq;
    destruct (itr s <? total_steps c); try reflexivity; try discriminate.
  rewrite bind_emit. cbn [fst snd pbar_closes passes].
  rewrite bind_trace, bind_result.
  destruct (for_loader_inside_pass (loader_len env) env c g s) as (C & P).
  destruct (snd (for_loader (loader_len env) env c g s)) as [s1 | e |];
    try discriminate.
  rewrite bind_emit. cbn [fst snd]. intros H.
  rewrite pbar_closes_app, passes_app, C, P.
  cbn [Nat.add pbar_closes passes]. f_equal. now apply IH.
Qed.

(** X12: [pbar.update] is called with num_devices once per inner iteration
    on the master ordinal and never on another device, so that on normal
    termination on the master the amounts passed to it add up to the final
    iteration count minus the starting one; and [pbar.close] is called at
    the end of every pass, line 231 being inside the [while] loop: on
    normal termination, as many times as there were passes. *)
Theorem progress_bar_counts_iterations fuel env config :
  pbar_total (fst (run fuel env config)) =
    (if is_master_ordinal env
     then Z.of_nat (inner_iterations (fst (run fuel env config)))
          * num_devices config
     else 0) /\
  (is_master_ordinal env = true ->
   forall s, snd (run fuel env config) = Ok s ->
     pbar_total (fst (run fuel env config)) = itr s - start_itr env config) /\
  (forall s, snd (run fuel env config) = Ok s ->
     pbar_closes (fst (run fuel env config))
     = passes (fst (run fuel env config))).
Proof.
  assert (A : pbar_total (fst (run fuel env config)) =
              if is_master_ordinal env
              then Z.of_nat (inner_iterations (fst (run fuel env config)))
                   * num_devices config
              else 0).
  { apply (run_trace_closed
             (fun tr => pbar_total tr =
                        if is_master_ordinal env
                        then Z.of_nat (inner_iterations tr)
                             * num_devices config
                        else 0)).
    - now destruct (is_master_ordinal env).
    - intros t1 t2 H1 H2.
      rewrite pbar_total_app, inner_iterations_app, H1, H2.
      destruct (is_master_ordinal env); lia.
    - intros c' P.
      destruct (prepared_from_keys _ _ P) as (_ & _ & _ & _ & _ & Hnd & _).
      split.
      + unfold setup_events.
        destruct (ema c'), (G_fp16 c'), (D_fp16 c'), (resume c'),
          (is_master_ordinal env); reflexivity.
      + intros s.
        destruct (inner_step_trace env c' (sample_batch_size c') s)
          as (sv & tv & ->).
        rewrite Hnd. unfold step_head, save_events, test_events.
        destruct (is_master_ordinal env), (ema c'), (G_eval_mode c'), sv, tv,
          ((0 <? sv_log_interval c')
           && ((itr s + num_devices config) mod sv_log_interval c' =? 0));
          cbn; lia.
    - now destruct (is_master_ordinal env).
    - now destruct (is_master_ordinal env). }
  split; [exact A |].
  destruct (run_cases fuel env config)
    as [(e & _ & E) | (c' & P & _ & E)]; rewrite E in A |- *;
    [split; intros; discriminate |].
  cbn [fst snd] in *.
  destruct (prepared_from_keys _ _ P) as (_ & _ & _ & _ & _ & Hnd & _).
  split.
  - intros Hm s Hs. rewrite A, Hm.
    destruct (tracks_train_loop fuel env c' (sample_batch_size c')
                (initial_state env c')) as (_ & _ & T).
    destruct (T s Hs) as (_ & C).
    rewrite (initial_state_itr env config c' P), Hnd in C.
    rewrite inner_iterations_app.
    destruct (setup_events_quiet env c' (start_itr env config))
      as (_ & -> & _ & _).
    exact C.
  - intros s Hs. rewrite pbar_closes_app, passes_app.
    rewrite setup_events_passes.
    assert (C0 : pbar_closes (setup_events env c' (start_itr env config)) = O).
    { unfold setup_events.
      destruct (ema c'), (G_fp16 c'), (D_fp16 c'), (resume c'),
        (is_master_ordinal env); reflexivity. }
    rewrite C0. cbn [Nat.add].
    now apply (train_loop_closes_each_pass _ _ _ _ _ s).
Qed.

Lemma progress_bar_counts_iterations_witness :
  is_master_ordinal fresh_env = true /\
  exists s,
    snd (run 2 fresh_env fresh_config) = Ok s /\
    pbar_total (fst (run 2 fresh_env fresh_config))
      = itr s - start_itr fresh_env fresh_config /\
    pbar_closes (fst (run 2 fresh_env fresh_config)) = 2%nat /\
    passes (fst (run 2 fresh_env fresh_config)) = 2%nat.
Proof.
  split; [reflexivity |].
  eexists. split; [vm_compute; reflexivity |].
  split.
  - apply (proj1 (proj2 (progress_bar_counts_iterations 2 fresh_env
                           fresh_config)) eq_refl).
    vm_compute. reflexivity.
  - split; vm_compute; reflexivity.
Defined.

Lemma resolve_config_outcome env c :
  match imsize_dict env !! dataset c, nclass_dict env !! dataset c,
        activation_dict env !! G_nl c, activation_dict env !! D_nl c with
  | Some r, Some n, Some g, Some d =>
      resolve_config env c =
      ([], Ok (set_D_activation d (set_G_activation g (set_n_classes n
                 (set_resolution r c)))))
  | Some _, Some _, Some _, None =>
      resolve_config env c = ([], Raise (KeyError (D_nl c)))
  | Some _, Some _, None, _ =>
      resolve_config env c = ([], Raise (KeyError (G_nl c)))
  | _, _, _, _ => resolve_config env c = ([], Raise (KeyError (dataset c)))
  end.
Proof.
  unfold resolve_config, getitem.
  cbn [dataset G_nl D_nl set_resolution set_n_classes set_G_activation].
  destruct (imsize_dict env !! dataset c) as [r |]; [| reflexivity].
  destruct (nclass_dict env !! dataset c) as [n |]; [| reflexivity].
  destruct (activation_dict env !! G_nl c) as [g |]; [| reflexivity].
  destruct (activation_dict env !! D_nl c) as [d |]; reflexivity.
Qed.

Lemma run_unrecognized env config fuel :
  ~ recognized env config ->
  exists key, run fuel env config = ([], Raise (KeyError key)).
Proof.
  intros Hn. destruct (resolve_config_unrecognized env config Hn) as (k & E).
  exists k. unfold run, setup. now rewrite E.
Qed.

(** X13: [run] raises KeyError exactly when an identifier is not recognized,
    and the key the error carries is the first identifier, in the order
    dataset, G_nl, D_nl, that is missing from the table it is looked up in;
    the training loop never raises it. *)
Theorem key_error_names_missing_identifier fuel env config :
  ((exists key, snd (run fuel env config) = Raise (KeyError key)) <->
   ~ recognized env config) /\
  (forall key, snd (run fuel env config) = Raise (KeyError key) ->
     (key = dataset config /\
      (imsize_dict env !! key = None \/ nclass_dict env !! key = None)) \/
     (key = G_nl config /\ activation_dict env !! key = None /\
      is_Some (imsize_dict env !! dataset config) /\
      is_Some (nclass_dict env !! dataset config)) \/
     (key = D_nl config /\ activation_dict env !! key = None /\
      is_Some (imsize_dict env !! dataset config) /\
      is_Some (nclass_dict env !! dataset config) /\
      is_Some (activation_dict env !! G_nl config))).
Proof.
  assert (L : forall key, snd (run fuel env config) = Raise (KeyError key) ->
            snd (resolve_config env config) = Raise (KeyError key)).
  { intros key H. unfold run in H.
    apply bind_Raise_inv in H as [H | (ready & _ & H)];
      [| apply train_loop_Raise_inv in H as (H & _); discriminate].
    unfold setup in H.
    apply bind_Raise_inv in H as [H | (c1 & E1 & H)]; [exact H |].
    exfalso. destruct (resolve_config env config) as [t r] eqn:E.
    cbn [snd] in E1. subst r.
    destruct (resolve_config_Ok_inv _ _ _ _ E) as (_ & -> & _).
    pose proof (setup_after_resolution env config c1 E) as S.
    cbv zeta in S.
    assert (S' : snd (setup env config) = Raise (KeyError key)).
    { unfold setup. rewrite bind_result, E. exact H. }
    rewrite S in S'.
    destruct (num_devices (with_skip_init c1) =? 0); [discriminate |].
    destruct (_ && _); discriminate. }
  split.
  - split.
    + intros (key & H) Hr. apply L in H.
      destruct (resolve_config_recognized env config Hr) as (c' & E & _).
      rewrite E in H. discriminate.
    + intros Hn. destruct (run_unrecognized env config fuel Hn) as (k & E).
      exists k. now rewrite E.
  - intros key H. apply L in H.
    pose proof (resolve_config_outcome env config) as O.
    destruct (imsize_dict env !! dataset config) as [r |] eqn:E1;
      [| rewrite O in H; inversion H; subst; rewrite E1; auto].
    destruct (nclass_dict env !! dataset config) as [n |] eqn:E2;
      [| rewrite O in H; inversion H; subst; rewrite E2; auto].
    destruct (activation_dict env !! G_nl config) as [g |] eqn:E3;
      [| rewrite O in H; inversion H; subst; rewrite E3;
         right; left; eauto 6].
    destruct (activation_dict env !! D_nl config) as [d |] eqn:E4;
      rewrite O in H; [discriminate |].
    inversion H; subst. rewrite E4. right. right. eauto 8.
Qed.

Lemma key_error_names_missing_identifier_witness :
  (exists key,
     snd (run 3 fresh_env unknown_dataset_config) = Raise (KeyError key)) /\
  (forall key,
     snd (run 3 fresh_env unknown_dataset_config) = Raise (KeyError key) ->
     key = "imagenet").
Proof.
  split.
  - apply (proj1 (key_error_names_missing_identifier 3 fresh_env
                    unknown_dataset_config)).
    intros (H & _). vm_compute in H. destruct H as [x H]. discriminate.
  - intros key H. vm_compute in H. now inversion H.
Defined.



Lemma tagged_with_counter_app cur t1 t2 :
  tagged_with_counter cur (t1 ++ t2) =
  match tagged_with_counter cur t1 with
  | Some cur1 => tagged_with_counter cur1 t2
  | None => None
  end.
Proof.
  revert cur. induction t1 as [| e t1 IH]; intros cur; [reflexivity |].
  destruct e; simpl; try apply IH;
    destruct cur as [v |]; try reflexivity;
    destruct (v =? at_itr); try reflexivity; apply IH.
Qed.

(** X15: every record of a run carries the iteration count last written to
    the State Dictionary: each step call, training-log record,
    singular-value record, progress description, checkpoint and evaluation
    comes after a write of the counter and is tagged with the value
    written. *)
Theorem records_carry_current_itr fuel env config cur :
  exists cur',
    tagged_with_counter cur (fst (run fuel env config)) = Some cur'.
Proof.
  revert cur.
  apply (run_trace_closed
           (fun tr => forall cur, exists cur',
                        tagged_with_counter cur tr = Some cur')).
  - intros cur. now exists cur.
  - intros t1 t2 H1 H2 cur. rewrite tagged_with_counter_app.
    destruct (H1 cur) as (cur1 & ->). apply H2.
  - intros c' _. split.
    + intros cur. unfold setup_events.
      destruct (ema c'), (G_fp16 c'), (D_fp16 c'), (resume c'),
        (is_master_ordinal env); cbn; eauto.
    + intros s cur.
      destruct (inner_step_trace env c' (sample_batch_size c') s)
        as (sv & tv & ->).
      unfold step_head, save_events, test_events.
      destruct (is_master_ordinal env), (ema c'), (G_eval_mode c'), sv, tv,
        ((0 <? sv_log_interval c')
         && ((itr s + num_devices c') mod sv_log_interval c' =? 0));
        cbn; rewrite ?Z.eqb_refl; eauto.
  - intros cur. now exists cur.
  - intros cur. now exists cur.
Qed.

(** ** The CelebA-HQ dataset *)

Lemma string_length_app (s t : string) :
  String.length (s +:+ t) = (String.length s + String.length t)%nat.
Proof. induction s as [| c s IH]; simpl; [reflexivity | now rewrite IH]. Qed.

Lemma string_app_inj_r (s1 s2 t : string) : s1 +:+ t = s2 +:+ t -> s1 = s2.
Proof.
  revert s2. induction s1 as [| c s1 IH]; intros [| d s2] H.
  - reflexivity.
  - apply (f_equal String.length) in H.
    change (String.length t = S (String.length (s2 +:+ t))) in H.
    rewrite string_length_app in H. lia.
  - apply (f_equal String.length) in H.
    change (S (String.length (s1 +:+ t)) = String.length t) in H.
    rewrite string_length_app in H. lia.
  - inversion H; subst. f_equal. now apply IH.
Qed.

(** A decimal numeral never starts with the path separator. *)
Lemma pretty_N_go_no_sep x s :
  (0 < x)%N \/ (s <> "" /\ starts_with_sep s = false) ->
  pretty_N_go x s <> "" /\ starts_with_sep (pretty_N_go x s) = false.
Proof.
  revert s. induction (N.lt_wf_0 x) as [x _ IH]. intros s H.
  destruct (N.eq_dec x 0%N) as [-> | Hx].
  - rewrite pretty_N_go_0. destruct H as [H | H]; [lia | exact H].
  - rewrite pretty_N_go_step by lia. apply IH.
    + apply N.div_lt; lia.
    + right. split; [discriminate |]. unfold pretty_N_char. simpl.
      repeat case_match; reflexivity.
Qed.

Lemma pretty_nat_no_sep (i : nat) t :
  starts_with_sep (pretty i +:+ t) = false.
Proof.
  unfold pretty, pretty_nat, pretty, pretty_N.
  destruct (decide (N.of_nat i = 0%N)); [reflexivity |].
  destruct (pretty_N_go_no_sep (N.of_nat i) "") as (Hne & Hs); [left; lia |].
  destruct (pretty_N_go (N.of_nat i) "") as [| c s]; [contradiction |].
  exact Hs.
Qed.

Lemma path_join_inj a b1 b2 :
  starts_with_sep b1 = false -> starts_with_sep b2 = false ->
  path_join a b1 = path_join a b2 -> b1 = b2.
Proof.
  unfold path_join. intros -> ->.
  destruct (String.eqb a "" || ends_with_sep a); intros H.
  - now apply String.app_inj in H.
  - apply String.app_inj in H. now inversion H.
Qed.

Lemma image_path_inj dir (i j : nat) :
  path_join dir (pretty i +:+ ".jpg") = path_join dir (pretty j +:+ ".jpg") ->
  i = j.
Proof.
  intros H. apply path_join_inj in H; try apply pretty_nat_no_sep.
  apply string_app_inj_r in H. now apply pretty_nat_inj in H.
Qed.

Lemma image_paths_length dir n : length (image_paths dir n) = n.
Proof. unfold image_paths. now rewrite length_map, length_seq. Qed.

Lemma image_paths_lookup dir n (i : nat) :
  (i < n)%nat ->
  image_paths dir n !! i = Some (path_join dir (pretty i +:+ ".jpg")).
Proof.
  intros H. unfold image_paths.
  change (map ?f ?l) with (f <$> l).
  now rewrite list_lookup_fmap, lookup_seq_lt.
Qed.

Section CelebAHQ_lemmas.
Context {Image Tensor : Type}.
Implicit Types (fs : FileSystem Image) (self : CelebAHQ Image Tensor).

Lemma preprocess_loop_spec indices self out :
  preprocess_loop indices self out =
  let paths :=
    map (fun i : nat => path_join (img_path self) (pretty i +:+ ".jpg"))
      indices in
  (mkCelebAHQ (img_path self) (transform_img self)
     (if mode self then train_dataset self ++ paths else train_dataset self)
     (if mode self then test_dataset self else test_dataset self ++ paths)
     (mode self) (num_images self),
   out ++ paths).
Proof.
  revert self out. induction indices as [| i rest IH]; intros self out.
  - cbn. rewrite !app_nil_r. destruct self; cbn.
    now destruct mode0.
  - cbn [preprocess_loop]. rewrite IH. cbv zeta.
    destruct (mode self) eqn:M; cbn [img_path transform_img train_dataset
      test_dataset mode num_images map]; rewrite ?M, <- !app_assoc;
      reflexivity.
Qed.

(** What the constructor builds and prints. *)
Lemma CelebAHQ_init_spec fs path (t : Image -> string + Tensor) m :
  CelebAHQ_init fs path t m =
  match listdir fs path with
  | inl e => ([], inl (ListdirError e))
  | inr names =>
      let n := length (List.filter
                         (fun name => isfile fs (path_join path name))
                         names) in
      (image_paths path n ++ ["Finished preprocessing the CelebA dataset..."],
       inr (mkCelebAHQ path t (if m then image_paths path n else [])
              (if m then [] else image_paths path n) m n))
  end.
Proof.
  unfold CelebAHQ_init, preprocess. cbn [img_path].
  destruct (listdir fs path) as [e | names]; [reflexivity |].
  cbv zeta. rewrite preprocess_loop_spec. cbv zeta.
  cbn [img_path transform_img train_dataset test_dataset mode num_images app].
  fold (image_paths path
          (length (List.filter
                     (fun name => isfile fs (path_join path name)) names))).
  destruct m; now rewrite image_paths_length.
Qed.

Lemma CelebAHQ_init_inv fs path (t : Image -> string + Tensor) m out obj :
  CelebAHQ_init fs path t m = (out, inr obj) ->
  exists names,
    listdir fs path = inr names /\
    let n := length (List.filter
                       (fun name => isfile fs (path_join path name))
                       names) in
    out = image_paths path n
            ++ ["Finished preprocessing the CelebA dataset..."] /\
    obj = mkCelebAHQ path t (if m then image_paths path n else [])
            (if m then [] else image_paths path n) m n.
Proof.
  rewrite CelebAHQ_init_spec.
  destruct (listdir fs path) as [e | names]; [discriminate |].
  cbv zeta. intros H. apply pair_equal_spec in H as [<- H].
  exists names. split; [reflexivity |]. split; [reflexivity |].
  now inversion H.
Qed.

End CelebAHQ_lemmas.

(** X16: the length of a constructed dataset is the number of regular files
    the directory listing holds, whatever their names, and it is the length
    of the list [__getitem__] indexes; the constructor succeeds whenever
    [os.listdir] returns, and when [os.listdir] raises it fails with that
    very exception, nothing having been printed. *)
Theorem CelebAHQ_len_counts_regular_files {Image Tensor}
    (fs : FileSystem Image) path (t : Image -> string + Tensor) m :
  (forall out obj, CelebAHQ_init fs path t m = (out, inr obj) ->
     exists names,
       listdir fs path = inr names /\
       CelebAHQ_len obj =
         length (List.filter (fun name => isfile fs (path_join path name))
                   names) /\
       CelebAHQ_len obj = length (selected_dataset obj)) /\
  (forall e, listdir fs path = inl e ->
     CelebAHQ_init fs path t m = ([], inl (ListdirError e))) /\
  (forall names, listdir fs path = inr names ->
     exists out obj, CelebAHQ_init fs path t m = (out, inr obj)).
Proof.
  split; [| split].
  - intros out obj H. apply CelebAHQ_init_inv in H as (names & L & H).
    cbv zeta in H. destruct H as (_ & ->).
    exists names. split; [exact L |].
    unfold CelebAHQ_len, selected_dataset. cbn.
    split; [reflexivity |]. destruct m; now rewrite image_paths_length.
  - intros e L. now rewrite CelebAHQ_init_spec, L.
  - intros names L. rewrite CelebAHQ_init_spec, L. eauto.
Qed.

Lemma CelebAHQ_len_counts_regular_files_witness :
  (exists out obj,
     CelebAHQ_init demo_fs "imgs" demo_transform true = (out, inr obj) /\
     CelebAHQ_len obj = 2%nat) /\
  CelebAHQ_init demo_fs "faces" demo_transform true
    = ([], inl (ListdirError "FileNotFoundError")) /\
  CelebAHQ_init demo_fs "imgs/0.jpg" demo_transform true
    = ([], inl (ListdirError "NotADirectoryError")).
Proof.
  split; [| split].
  - destruct (proj2 (proj2 (CelebAHQ_len_counts_regular_files demo_fs "imgs"
                              demo_transform true))
                ["0.jpg"; "1.jpg"; "masks"] eq_refl) as (out & obj & E).
    exists out, obj. split; [exact E |].
    destruct (proj1 (CelebAHQ_len_counts_regular_files demo_fs "imgs"
                       demo_transform true) out obj E)
      as (names & L & -> & _).
    vm_compute in L. inversion L; subst names. reflexivity.
  - apply (proj1 (proj2 (CelebAHQ_len_counts_regular_files demo_fs "faces"
                           demo_transform true))).
    reflexivity.
  - apply (proj1 (proj2 (CelebAHQ_len_counts_regular_files demo_fs
                           "imgs/0.jpg" demo_transform true))).
    reflexivity.
Defined.

(** X17: a constructed dataset lists, in order, the paths
    <img_path>/0.jpg ... <img_path>/(n-1).jpg, n being its length, in the
    list its mode selects and leaves the other list empty; the names found
    in the directory play no part; the same paths are printed, followed by
    the closing message. *)
Theorem CelebAHQ_paths_are_numbered {Image Tensor}
    (fs : FileSystem Image) path (t : Image -> string + Tensor) m out obj :
  CelebAHQ_init fs path t m = (out, inr obj) ->
  selected_dataset obj = image_paths path (CelebAHQ_len obj) /\
  (if m then test_dataset obj else train_dataset obj) = [] /\
  out = image_paths path (CelebAHQ_len obj)
          ++ ["Finished preprocessing the CelebA dataset..."] /\
  img_path obj = path /\ mode obj = m.
Proof.
  intros E. apply CelebAHQ_init_inv in E as (names & _ & E). cbv zeta in E.
  destruct E as (-> & ->).
  unfold selected_dataset, CelebAHQ_len. cbn.
  destruct m; repeat split; reflexivity.
Qed.

Lemma CelebAHQ_paths_are_numbered_witness :
  exists out obj,
    CelebAHQ_init demo_fs "imgs" demo_transform false = (out, inr obj) /\
    test_dataset obj = ["imgs/0.jpg"; "imgs/1.jpg"] /\
    train_dataset obj = [].
Proof.
  destruct (CelebAHQ_init demo_fs "imgs" demo_transform false)
    as [out [e | obj]] eqn:E; [vm_compute in E; discriminate |].
  exists out, obj. split; [reflexivity |].
  destruct (CelebAHQ_paths_are_numbered demo_fs "imgs" demo_transform false
              out obj E) as (P & T & _ & _ & M).
  unfold selected_dataset in P. rewrite M in P. split; [| exact T].
  rewrite P. vm_compute in E. inversion E; subst. reflexivity.
Defined.

(** X18: on a constructed dataset, a non-negative index below the length
    opens the file <img_path>/<index>.jpg and nothing else: the access
    returns what the transform returns on the image opened, fails with the
    exception [Image.open] raised on that path when it raises -- the
    directory held files under other names, or files that are no images --
    and with the exception of the transform when that raises. *)
Theorem CelebAHQ_getitem_opens_numbered_file {Image Tensor}
    (fs fs' : FileSystem Image) path (t : Image -> string + Tensor) m out obj
    i :
  CelebAHQ_init fs path t m = (out, inr obj) ->
  0 <= i < Z.of_nat (CelebAHQ_len obj) ->
  CelebAHQ_getitem fs' obj i =
    match image_open fs' (path_join path (pretty (Z.to_nat i) +:+ ".jpg")) with
    | inl e => inl (OpenError e)
    | inr image =>
        match t image with
        | inl e => inl (TransformError e)
        | inr tensor => inr tensor
        end
    end.
Proof.
  intros E Hi. apply CelebAHQ_init_inv in E as (names & _ & E).
  cbv zeta in E. destruct E as (_ & ->).
  set (n := length (List.filter
                      (fun name => isfile fs (path_join path name)) names))
    in *.
  unfold CelebAHQ_len in Hi. cbn [num_images] in Hi.
  unfold CelebAHQ_getitem. cbn [mode train_dataset test_dataset transform_img].
  assert (L : list_getitem (image_paths path n) i
              = Some (path_join path (pretty (Z.to_nat i) +:+ ".jpg"))).
  { unfold list_getitem. rewrite image_paths_length.
    destruct (Z.leb_spec 0 i); [| lia].
    destruct (Z.ltb_spec i (Z.of_nat n)); [| lia].
    cbn [andb]. apply image_paths_lookup. lia. }
  destruct m; now rewrite L.
Qed.

Lemma CelebAHQ_getitem_opens_numbered_file_witness :
  exists out obj,
    CelebAHQ_init demo_fs "imgs" demo_transform true = (out, inr obj) /\
    0 <= 1 < Z.of_nat (CelebAHQ_len obj) /\
    CelebAHQ_getitem demo_fs obj 1 = inr 12%nat.
Proof.
  destruct (CelebAHQ_init demo_fs "imgs" demo_transform true)
    as [out [e | obj]] eqn:E; [vm_compute in E; discriminate |].
  exists out, obj. split; [reflexivity |].
  assert (L : 0 <= 1 < Z.of_nat (CelebAHQ_len obj))
    by (vm_compute in E; inversion E; subst; vm_compute; split; congruence).
  split; [exact L |].
  rewrite (CelebAHQ_getitem_opens_numbered_file demo_fs demo_fs "imgs"
             demo_transform true out obj 1 E L).
  reflexivity.
Defined.

(** X19: a negative index counts from the end of the dataset: for
    -n <= index < 0, n being the length of the selected list, the item is
    the one at index n + index. *)
Theorem CelebAHQ_getitem_negative_index {Image Tensor}
    (fs : FileSystem Image) (self : CelebAHQ Image Tensor) i :
  - Z.of_nat (length (selected_dataset self)) <= i < 0 ->
  CelebAHQ_getitem fs self i
  = CelebAHQ_getitem fs self (Z.of_nat (length (selected_dataset self)) + i).
Proof.
  intros H. unfold CelebAHQ_getitem. fold (selected_dataset self).
  set (n := Z.of_nat (length (selected_dataset self))) in *.
  unfold list_getitem. fold n.
  destruct (Z.leb_spec 0 i); [lia |].
  destruct (Z.leb_spec (- n) i); [| lia].
  destruct (Z.ltb_spec i 0); [| lia].
  destruct (Z.leb_spec 0 (n + i)); [| lia].
  destruct (Z.ltb_spec (n + i) n); [| lia].
  reflexivity.
Qed.

Lemma CelebAHQ_getitem_negative_index_witness :
  - Z.of_nat (length (selected_dataset demo_dataset)) <= -1 < 0 /\
  CelebAHQ_getitem demo_fs demo_dataset (-1) = inr 12%nat.
Proof.
  assert (H : - Z.of_nat (length (selected_dataset demo_dataset)) <= -1 < 0)
    by (vm_compute; split; congruence).
  split; [exact H |].
  rewrite (CelebAHQ_getitem_negative_index demo_fs demo_dataset (-1) H).
  reflexivity.
Defined.

(** X20: the list indexing of an access (line 39) raises IndexError exactly
    when the index is outside -n <= index < n, n being the length of the
    selected list; inside that range a failure can only come from opening
    the file or from the transform. *)
Theorem CelebAHQ_getitem_index_error {Image Tensor}
    (fs : FileSystem Image) (self : CelebAHQ Image Tensor) i :
  CelebAHQ_getitem fs self i = inl IndexError <->
  i < - Z.of_nat (length (selected_dataset self)) \/
  Z.of_nat (length (selected_dataset self)) <= i.
Proof.
  unfold CelebAHQ_getitem. fold (selected_dataset self).
  set (l := selected_dataset self). set (n := Z.of_nat (length l)).
  assert (In_range : forall k : nat, (k < length l)%nat ->
            match l !! k with
            | Some p =>
                match image_open fs p with
                | inl e => inl (OpenError e)
                | inr image =>
                    match transform_img self image with
                    | inl e => inl (TransformError e)
                    | inr tensor => inr tensor
                    end
                end
            | None => inl IndexError
            end <> inl IndexError).
  { intros k Hk. destruct (lookup_lt_is_Some_2 l k Hk) as [p ->].
    destruct (image_open fs p) as [e | image]; [discriminate |].
    destruct (transform_img self image); discriminate. }
  unfold list_getitem. fold n.
  destruct (Z.leb_spec 0 i), (Z.ltb_spec i n), (Z.leb_spec (- n) i),
    (Z.ltb_spec i 0); cbn [andb]; try lia;
    first [ split; [lia | reflexivity]
          | split; [| lia]; intros Err; exfalso; revert Err;
            apply In_range; lia ].
Qed.

Lemma CelebAHQ_getitem_index_error_witness :
  Z.of_nat (length (selected_dataset demo_dataset)) <= 2 /\
  CelebAHQ_getitem demo_fs demo_dataset 2 = inl IndexError.
Proof.
  assert (H : Z.of_nat (length (selected_dataset demo_dataset)) <= 2)
    by (vm_compute; congruence).
  split; [exact H |].
  apply (proj2 (CelebAHQ_getitem_index_error demo_fs demo_dataset 2)).
  now right.
Defined.

(** X21: the paths of a constructed dataset are pairwise distinct: no image
    is listed twice. *)
Theorem CelebAHQ_paths_distinct {Image Tensor}
    (fs : FileSystem Image) path (t : Image -> string + Tensor) m out obj :
  CelebAHQ_init fs path t m = (out, inr obj) ->
  List.NoDup (selected_dataset obj).
Proof.
  intros E. apply CelebAHQ_init_inv in E as (names & _ & E).
  cbv zeta in E. destruct E as (_ & ->).
  assert (D : forall n, List.NoDup (image_paths path n)).
  { intros n. unfold image_paths. apply Finite.Injective_map_NoDup.
    - intros i j. apply image_path_inj.
    - apply List.seq_NoDup. }
  unfold selected_dataset. cbn. destruct m; apply D.
Qed.

Lemma CelebAHQ_paths_distinct_witness :
  exists out obj,
    CelebAHQ_init demo_fs "imgs" demo_transform true = (out, inr obj) /\
    List.NoDup (selected_dataset obj).
Proof.
  destruct (CelebAHQ_init demo_fs "imgs" demo_transform true)
    as [out [e | obj]] eqn:E; [vm_compute in E; discriminate |].
  exists out, obj. split; [reflexivity |].
  exact (CelebAHQ_paths_distinct demo_fs "imgs" demo_transform true out obj E).
Defined.

(** ** The configuration classes *)

Lemma model_config_getattr name ty path :
  name <> "model_type" -> name <> "model_name_or_path" ->
  forall cname,
    class_getattr
      (PySubclass cname
         [("model_type", PyStr ty); ("model_name_or_path", PyStr path)]
         BaseConfig) name
    = class_getattr BaseConfig name.
Proof.
  intros H1 H2 cname. cbn [class_getattr body_lookup].
  destruct (String.eqb_spec "model_name_or_path" name) as [E | _];
    [congruence |].
  destruct (String.eqb_spec "model_type" name) as [E | _]; [congruence |].
  reflexivity.
Qed.

(** X22: neither model configuration overrides a setting of BaseConfig:
    every attribute BaseConfig defines -- the SMYRF settings among them --
    resolves on AlbertConfig and on BertBaseConfig to BaseConfig's value. *)
Theorem model_configs_inherit_base name v :
  class_getattr BaseConfig name = Some v ->
  class_getattr AlbertConfig name = Some v /\
  class_getattr BertBaseConfig name = Some v.
Proof.
  intros H.
  assert (N1 : name <> "model_type")
    by (intros ->; vm_compute in H; discriminate).
  assert (N2 : name <> "model_name_or_path")
    by (intros ->; vm_compute in H; discriminate).
  unfold AlbertConfig, BertBaseConfig.
  rewrite !model_config_getattr by assumption. now split.
Qed.

Lemma model_configs_inherit_base_witness :
  class_getattr BaseConfig "smyrf" = Some (PyBool true) /\
  class_getattr AlbertConfig "smyrf" = Some (PyBool true) /\
  class_getattr BertBaseConfig "smyrf" = Some (PyBool true).
Proof.
  assert (H : class_getattr BaseConfig "smyrf" = Some (PyBool true))
    by reflexivity.
  split; [exact H |]. exact (model_configs_inherit_base "smyrf" _ H).
Defined.

(** X23: among the names the class bodies assign, the two model
    configurations agree on every one except model_type and
    model_name_or_path, on which they differ; each of the two assigns both,
    and the body of BaseConfig assigns neither of the two. *)
Theorem model_configs_differ_only_in_model name :
  is_Some (class_getattr AlbertConfig name) \/
  is_Some (class_getattr BertBaseConfig name) ->
  (class_getattr AlbertConfig name = class_getattr BertBaseConfig name <->
   name <> "model_type" /\ name <> "model_name_or_path") /\
  (name = "model_type" \/ name = "model_name_or_path" ->
   is_Some (class_getattr AlbertConfig name) /\
   is_Some (class_getattr BertBaseConfig name) /\
   class_getattr BaseConfig name = None).
Proof.
  intros _. split; [split |].
  - intros H. split; intros ->; vm_compute in H; discriminate.
  - intros [H1 H2]. unfold AlbertConfig, BertBaseConfig.
    now rewrite !model_config_getattr.
  - intros [-> | ->]; vm_compute; repeat split; eauto.
Qed.

Lemma model_configs_differ_only_in_model_witness :
  class_getattr AlbertConfig "k_cluster_size" = Some (PyInt 64) /\
  class_getattr AlbertConfig "k_cluster_size"
    = class_getattr BertBaseConfig "k_cluster_size" /\
  class_getattr AlbertConfig "model_type" = Some (PyStr "albert") /\
  class_getattr AlbertConfig "model_type"
    <> class_getattr BertBaseConfig "model_type".
Proof.
  assert (K : class_getattr AlbertConfig "k_cluster_size" = Some (PyInt 64))
    by reflexivity.
  assert (T : class_getattr AlbertConfig "model_type" = Some (PyStr "albert"))
    by reflexivity.
  split; [exact K |]. split; [| split; [exact T |]].
  - apply (proj1 (model_configs_differ_only_in_model "k_cluster_size"
                    (or_introl (ex_intro _ _ K)))).
    split; discriminate.
  - intros E.
    apply (proj1 (model_configs_differ_only_in_model "model_type"
                    (or_introl (ex_intro _ _ T)))) in E.
    now destruct E as [E _].
Defined.
